(** * SAP repair checker: the anomaly detector and the report writer

    A shallow embedding of [orchestration_logic.py]:
    [find_anomalous_repairs] (the detector) and [write_results_to_file]
    (the report formatter and writer), with the properties the
    specification states about them.

    Conventions of the embedding.
    - Python [str] is [string]: a sequence of bytes (the UTF-8 encoding, on
      which byte-wise lexicographic order and code-point order agree), and
      Python's [<] on [str] is [String.ltb].
    - Python [int] is [Z] for movement codes and [nat] for counts, which
      are lengths and occurrence counts.
    - A [dict] whose iteration order is never observed ([Counter], the
      ['Movement Codes Found'] entry) is a [gmap]: two such maps are equal
      when their entries are, which is Python's [==] on dicts.
    - The file system is reached through the calls gathered in [Os]
      (directory, open, every [f.write], close); a call that raises is an
      [option] holding the text of the exception, and the [try]/[except]
      of the writer is a match on it.
    - [print] calls write to standard output only and are left out. *)

From Stdlib Require Import ZArith String Ascii List Sorted Lia.
From stdpp Require Import base gmap strings list sorting pretty.

Local Open Scope Z_scope.
Local Set Warnings "-clear-no-such-hyp".

(** ** Sorting, as [sorted] and [list.sort] do it

    Both are stable and ascending. [sorted_by key leb] orders by
    [leb (key x) (key y)]; an element is put in front of the later elements
    with an equal key, so ties keep their input order. *)

Section sorted_by.
Context {A K : Type} (key : A → K) (leb : K → K → bool).

Fixpoint insert_by (x : A) (l : list A) : list A :=
  match l with
  | [] => [x]
  | y :: l' => if leb (key x) (key y) then x :: y :: l' else y :: insert_by x l'
  end.

Definition sorted_by (l : list A) : list A := foldr insert_by [] l.

Definition key_le (x y : A) : Prop := leb (key x) (key y) = true.
End sorted_by.

(** [sorted(xs)] on a list of ints. *)
Definition sorted (xs : list Z) : list Z := sorted_by id Z.leb xs.

(** ** The input table *)

(** One row of the frame, restricted to the two columns the detector reads. *)
Record Row := mkRow { repair_number : string; movement_code : Z }.

(** A [DataFrame]: its column labels and its rows. The cells of a row are
    only read under the labels ['Repair Number'] and ['Movement Code'], and
    only after the guard has found both labels among the columns. *)
Record DataFrame := mkDataFrame { columns : list string; rows : list Row }.

(** [data.empty]: some axis has length 0. *)
Definition df_empty (data : DataFrame) : bool :=
  bool_decide (columns data = []) || bool_decide (rows data = []).

(** [data.groupby('Repair Number')], iterated: the distinct keys in
    ascending order (the default [sort=True]), each with its rows in their
    original order. *)
Definition group_keys (data : DataFrame) : list string :=
  sorted_by id String.leb (remove_dups (repair_number <$> rows data)).

Definition groupby (data : DataFrame) : list (string * list Row) :=
  (λ k, (k, filter (λ r, repair_number r = k) (rows data))) <$> group_keys data.

(** ** The detector *)

Record AnomalyRecord := mkAnomaly {
  Repair_Number : string;
  Movement_Codes_Found : gmap Z nat;
  Missing_Codes : list Z;
  Extra_Codes : list Z;
  Unexpected_Codes : list Z;
  Total_Count : nat
}.

(** [required_codes = {251, 161, 252}] *)
Definition required_codes : gset Z := {[ 251; 161; 252 ]}.

(** [Counter(movement_codes)]: one pass, left to right. *)
Definition Counter (movement_codes : list Z) : gmap Z nat :=
  foldl (λ counts code, <[code := S (default 0%nat (counts !! code))]> counts) ∅ movement_codes.

(** [code_counts.get(code, 0)] *)
Definition get0 (code_counts : gmap Z nat) (code : Z) : nat :=
  default 0%nat (code_counts !! code).

Section detector.
(** The order in which [for code in required_codes] visits the set.
    Python leaves it unspecified; every use below is under [all] or
    [sorted]. *)
Variable required_iter : list Z.

Definition is_perfect (total_count : nat) (code_counts : gmap Z nat) : bool :=
  bool_decide (total_count = 3%nat)
  && forallb (λ code, bool_decide (get0 code_counts code = 1%nat)) required_iter
  && forallb (λ code, bool_decide (code ∈ required_codes)) (elements (dom code_counts)).

(** The body of the loop over the groups: [None] is [continue]. *)
Definition analyse_group (repair_num : string) (group_df : list Row) : option AnomalyRecord :=
  let movement_codes := movement_code <$> group_df in
  let total_count := length movement_codes in
  let code_counts := Counter movement_codes in
  if is_perfect total_count code_counts then None
  else
    let missing_required :=
      sorted (filter (λ code, get0 code_counts code = 0%nat) required_iter) in
    let extra_required :=
      sorted (filter (λ code, (1 < get0 code_counts code)%nat) required_iter) in
    let unexpected_found :=
      sorted (filter (λ code, code ∉ required_codes) (elements (dom code_counts))) in
    Some {| Repair_Number := repair_num;
            Movement_Codes_Found := code_counts;
            Missing_Codes := missing_required;
            Extra_Codes := extra_required;
            Unexpected_Codes := unexpected_found;
            Total_Count := total_count |}.

Definition find_anomalous_repairs_iter (data : DataFrame) : list AnomalyRecord :=
  if df_empty data
     || negb (bool_decide ("Repair Number" ∈ columns data))
     || negb (bool_decide ("Movement Code" ∈ columns data))
  then []
  else omap (λ g, analyse_group g.1 g.2) (groupby data).
End detector.

Definition find_anomalous_repairs (data : DataFrame) : list AnomalyRecord :=
  find_anomalous_repairs_iter (elements required_codes) data.

(** ** The report writer *)

(** The operating system, as far as [write_results_to_file] calls it.
    [Some e] is a call that raises an exception whose text is [e].
    [f_write os done chunk] is the call [f.write(chunk)] on the open file,
    after the calls for the chunks [done] have returned; [f_close os done]
    is the flush and close on leaving the [with] block. *)
Record Os := mkOs {
  os_path_dirname : string → string;
  os_path_exists : string → bool;
  os_makedirs : string → option string;
  open_w : string → option string;
  f_write : list string → string → option string;
  f_close : list string → option string
}.

(** What a call leaves behind: the caller's list object, the text handed to
    the file by the calls of [f.write] that returned ([None] when the file
    was not opened), and the returned message. When a write or the close
    raises, how much of that text has reached the file is up to the
    operating system. *)
Record Outcome := mkOutcome {
  anomalies_after : list AnomalyRecord;
  written : option string;
  status_message : string
}.

(** The newline character, ['\n']. *)
Definition nl : string := String "010"%char EmptyString.

(** [s * n] *)
Fixpoint str_repeat (s : string) (n : nat) : string :=
  match n with
  | O => ""
  | S n' => s +:+ str_repeat s n'
  end.

(** [sep.join(parts)] *)
Definition join (sep : string) (parts : list string) : string := String.concat sep parts.

(** [f"{code}({anomaly['Movement Codes Found'].get(code,'?')})"]; [pretty]
    is [str] on integers: the decimal digits, with a minus sign in front of
    a negative number. *)
Definition code_with_tally (anomaly : AnomalyRecord) (code : Z) : string :=
  pretty code +:+ "("
  +:+ match Movement_Codes_Found anomaly !! code with
      | Some n => pretty n
      | None => "?"
      end
  +:+ ")".

(** The body of the loop over the anomalies, up to [output_string]. The
    record has its six entries, so the defaults of [anomaly.get] are not
    reached. *)
Definition anomaly_line (anomaly : AnomalyRecord) : string :=
  let parts := ["Repair: " +:+ Repair_Number anomaly] in
  let missing := Missing_Codes anomaly in
  let extra := Extra_Codes anomaly in
  let unexpected := Unexpected_Codes anomaly in
  let parts :=
    match missing with
    | [] => parts
    | _ => parts ++ ["Missing: " +:+ join ", " (pretty <$> missing)]
    end in
  let parts :=
    match extra with
    | [] => parts
    | _ => parts ++ ["Extra Count(s): " +:+ join ", " (code_with_tally anomaly <$> extra)]
    end in
  let parts :=
    match unexpected with
    | [] => parts
    | _ => parts ++ ["Unexpected Code(s): " +:+ join ", " (code_with_tally anomaly <$> unexpected)]
    end in
  join ", " parts.

(** The [with open(...) as f] block: the chunks passed to [f.write], in
    order, and [status_message]. *)
Definition report_writes (detailed_anomalies : list AnomalyRecord) (output_file_path : string)
  : list string * string :=
  match detailed_anomalies with
  | [] =>
      (["No anomalous repair numbers found based on the detailed criteria." +:+ nl],
       "No anomalies found. Results summary written to " +:+ output_file_path)
  | _ =>
      (["Concise Anomaly Report:" +:+ nl; str_repeat "=" 60 +:+ nl]
       ++ ((λ anomaly, anomaly_line anomaly +:+ nl) <$> detailed_anomalies)
       ++ [str_repeat "=" 60 +:+ nl;
           nl +:+ "Total flagged: " +:+ pretty (length detailed_anomalies) +:+ nl],
       "Found " +:+ pretty (length detailed_anomalies)
       +:+ " anomalies. Concise report written to " +:+ output_file_path)
  end.

(** [f"Error writing concise results to file {output_file_path}: {e}"] *)
Definition error_message (output_file_path e : string) : string :=
  "Error writing concise results to file " +:+ output_file_path +:+ ": " +:+ e.

(** The calls of [f.write] in the [with] block, one chunk after the other
    up to the first that raises: the chunks whose call returned, and the
    exception if there is one. *)
Fixpoint write_chunks (os : Os) (done chunks : list string) : list string * option string :=
  match chunks with
  | [] => (done, None)
  | chunk :: rest =>
      match f_write os done chunk with
      | Some e => (done, Some e)
      | None => write_chunks os (done ++ [chunk]) rest
      end
  end.

(** The directory step in front of the sort: [Some e] when [os.makedirs]
    raises. *)
Definition prepare_dir (os : Os) (output_file_path : string) : option string :=
  let output_dir := os_path_dirname os output_file_path in
  if negb (String.eqb output_dir "") && negb (os_path_exists os output_dir)
  then os_makedirs os output_dir
  else None.

Definition write_results_to_file
    (detailed_anomalies : list AnomalyRecord) (output_file_path : string) (os : Os) : Outcome :=
  match prepare_dir os output_file_path with
  | Some e =>
      mkOutcome detailed_anomalies None (error_message output_file_path e)
  | None =>
      (* detailed_anomalies.sort(key=...): the caller's list is sorted in place *)
      let detailed_anomalies := sorted_by Repair_Number String.leb detailed_anomalies in
      match open_w os output_file_path with
      | Some e =>
          mkOutcome detailed_anomalies None (error_message output_file_path e)
      | None =>
          let '(chunks, status_message) := report_writes detailed_anomalies output_file_path in
          let '(done, raised) := write_chunks os [] chunks in
          let text := String.concat "" done in
          (* leaving the with block closes the file, also when a write has
             raised; an exception of the close is the one that reaches the
             handler *)
          match f_close os done, raised with
          | Some e, _ =>
              mkOutcome detailed_anomalies (Some text) (error_message output_file_path e)
          | None, Some e =>
              mkOutcome detailed_anomalies (Some text) (error_message output_file_path e)
          | None, None =>
              mkOutcome detailed_anomalies (Some text) status_message
          end
      end
  end.

(** ** The loader *)






(** ** Sample tables *)

(** The columns of an export, and a table with one perfect repair (R1) and
    three repairs out of pattern: a missing code (R2), a code twice (R3), a
    code that is not expected (R4). *)
Definition sap_columns : list string := ["Repair Number"; "Movement Code"].

Definition sample : DataFrame :=
  mkDataFrame sap_columns
    [ mkRow "R3" 251; mkRow "R1" 251; mkRow "R2" 251; mkRow "R3" 251;
      mkRow "R1" 161; mkRow "R4" 999; mkRow "R2" 161; mkRow "R1" 252;
      mkRow "R3" 161; mkRow "R3" 252; mkRow "R4" 251; mkRow "R4" 161; mkRow "R4" 252 ].

(** ** Notions used to state the properties *)

(** Python's [<=] on [str]. *)
Definition string_le (s1 s2 : string) : Prop := String.leb s1 s2 = true.

(** The number of occurrences of [code] in a list of codes. *)
Definition count_code (code : Z) (codes : list Z) : nat :=
  length (filter (λ x, x = code) codes).

(** The sum of the counts of a tally. *)
Definition tally_sum (counts : gmap Z nat) : nat :=
  map_fold (λ _ n acc, (n + acc)%nat) 0%nat counts.

(** One step of [Counter]. *)
Abbreviation bump := (λ (counts : gmap Z nat) (code : Z),
  <[code := S (default 0%nat (counts !! code))]> counts).

(** The rows of one repair, and how often a code occurs among them. *)
Definition group_rows (data : DataFrame) (r : string) : list Row :=
  filter (λ row, repair_number row = r) (rows data).

Definition occurrences (data : DataFrame) (r : string) (code : Z) : nat :=
  length (filter (λ row, repair_number row = r ∧ movement_code row = code) (rows data)).

(** [{251: 1, 161: 1, 252: 1}] *)
Definition perfect_tally : gmap Z nat := {[ 251 := 1%nat; 161 := 1%nat; 252 := 1%nat ]}.

(** The tally of repair [r] is exactly the perfect one: each required code
    once and no other code. *)
Definition perfect_repair (data : DataFrame) (r : string) : Prop :=
  ∀ code, occurrences data r code = if decide (code ∈ required_codes) then 1%nat else 0%nat.

(** An order of visit of a set: each element once. *)
Definition enumerates (iter : list Z) (s : gset Z) : Prop :=
  NoDup iter ∧ ∀ code, code ∈ iter ↔ code ∈ s.

(** The table has both columns the detector reads. *)
Definition has_required_fields (data : DataFrame) : Prop :=
  "Repair Number" ∈ columns data ∧ "Movement Code" ∈ columns data.

(** The required codes in ascending order. *)
Definition required_ascending : list Z := [161; 251; 252].

(** Both calls that can raise in front of the first [f.write] return. *)
Definition opens (os : Os) (output_file_path : string) : bool :=
  match prepare_dir os output_file_path, open_w os output_file_path with
  | None, None => true
  | _, _ => false
  end.

(** The order in which the writer walks the anomalies. *)
Definition by_repair_number (l : list AnomalyRecord) : list AnomalyRecord :=
  sorted_by Repair_Number String.leb l.

(** Every call of [f.write] for the chunks returns, each after the chunks
    in front of it. *)
Definition accepts (os : Os) (chunks : list string) : Prop :=
  ∀ done chunk rest, chunks = done ++ chunk :: rest → f_write os done chunk = None.

(** The report as the specification lays it out: a rule of 60 [=], the
    line written for an empty list, the header and the footer around the
    lines of the anomalies, and the clauses of one line. *)
Definition rule60 : string :=
  "============================================================".

Definition sentinel_line : string :=
  "No anomalous repair numbers found based on the detailed criteria." +:+ nl.

Definition report_header : string :=
  "Concise Anomaly Report:" +:+ nl +:+ rule60 +:+ nl.

Definition report_footer (flagged : nat) : string :=
  rule60 +:+ nl +:+ nl +:+ "Total flagged: " +:+ pretty flagged +:+ nl.

(** A clause is left out when it has nothing to list. *)
Definition clause (label : string) (items : list string) : list string :=
  match items with
  | [] => []
  | _ => [label +:+ join ", " items]
  end.

Definition clauses (a : AnomalyRecord) : list string :=
  ["Repair: " +:+ Repair_Number a]
  ++ clause "Missing: " (pretty <$> Missing_Codes a)
  ++ clause "Extra Count(s): " (code_with_tally a <$> Extra_Codes a)
  ++ clause "Unexpected Code(s): " (code_with_tally a <$> Unexpected_Codes a).


(** The chunks of a report on the anomalies [ordered], in the order of the
    list: the sentinel line for no anomaly; else header and rule, a line
    for each anomaly, rule and footer. *)
Definition report_chunks (ordered : list AnomalyRecord) : list string :=
  match ordered with
  | [] => [sentinel_line]
  | _ =>
      ["Concise Anomaly Report:" +:+ nl; rule60 +:+ nl]
      ++ ((λ a, anomaly_line a +:+ nl) <$> ordered)
      ++ [rule60 +:+ nl; nl +:+ "Total flagged: " +:+ pretty (length ordered) +:+ nl]
  end.

(** No call to the operating system raises during the call of the writer on
    the list [l]: the directory step, the open, the write of every chunk
    of the report, the close. *)
Definition completes (os : Os) (l : list AnomalyRecord) (output_file_path : string) : Prop :=
  opens os output_file_path = true
  ∧ accepts os (report_chunks (by_repair_number l))
  ∧ f_close os (report_chunks (by_repair_number l)) = None.

(** An operating system for a bare file name: no directory part, the file
    can be opened, and no write nor the close raises. *)
Definition plain_os : Os :=
  {| os_path_dirname := λ _, ""; os_path_exists := λ _, true;
     os_makedirs := λ _, None; open_w := λ _, None;
     f_write := λ _ _, None; f_close := λ _, None |}.




(** Two repairs out of pattern, as the detector reports them. *)
Definition anomaly_R2 : AnomalyRecord :=
  {| Repair_Number := "R2";
     Movement_Codes_Found := {[ 251 := 1%nat; 161 := 1%nat ]};
     Missing_Codes := [252]; Extra_Codes := []; Unexpected_Codes := [];
     Total_Count := 2 |}.

Definition anomaly_R3 : AnomalyRecord :=
  {| Repair_Number := "R3";
     Movement_Codes_Found := {[ 251 := 2%nat; 161 := 1%nat; 252 := 1%nat ]};
     Missing_Codes := []; Extra_Codes := [251]; Unexpected_Codes := [];
     Total_Count := 4 |}.

Definition anomaly_R4 : AnomalyRecord :=
  {| Repair_Number := "R4";
     Movement_Codes_Found := {[ 999 := 1%nat; 251 := 1%nat; 161 := 1%nat; 252 := 1%nat ]};
     Missing_Codes := []; Extra_Codes := []; Unexpected_Codes := [999];
     Total_Count := 4 |}.

(** A table without rows, and a table in two orders of its rows. *)
Definition no_rows : DataFrame := mkDataFrame sap_columns [].

Definition three_rows : DataFrame :=
  mkDataFrame sap_columns [mkRow "R2" 251; mkRow "R1" 161; mkRow "R2" 161].

Definition three_rows_swapped : DataFrame :=
  mkDataFrame sap_columns [mkRow "R1" 161; mkRow "R2" 251; mkRow "R2" 161].

(** Python's [<] on [str]. *)
Definition string_lt (s1 s2 : string) : Prop := String.ltb s1 s2 = true.

(** The rows of repair [r] whose code is not a required code. *)
Definition stray_rows (data : DataFrame) (r : string) : list Row :=
  filter (λ row, movement_code row ∉ required_codes) (group_rows data r).

(** Two tables put one after the other. *)
Definition df_append (d1 d2 : DataFrame) : DataFrame :=
  mkDataFrame (columns d1) (rows d1 ++ rows d2).


(** A table of one perfect repair, with a repair number [sample] has not. *)
Definition perfect_R7 : DataFrame :=
  mkDataFrame sap_columns [mkRow "R7" 252; mkRow "R7" 251; mkRow "R7" 161].

(** * Properties *)

(** ** The order on strings *)

Lemma string_leb_trans (s1 s2 s3 : string) :
  String.leb s1 s2 = true → String.leb s2 s3 = true → String.leb s1 s3 = true.
Proof. rewrite <- !Is_true_true. apply (transitivity (R := String.le)). Qed.

Lemma Z_leb_total (a b : Z) : Z.leb a b = true ∨ Z.leb b a = true.
Proof. lia. Qed.

Lemma Z_leb_trans (a b c : Z) : Z.leb a b = true → Z.leb b c = true → Z.leb a c = true.
Proof. lia. Qed.

(** ** Sorting *)

Section sorted_by_facts.
Context {A K : Type} (key : A → K) (leb : K → K → bool).
Hypothesis leb_total : ∀ a b, leb a b = true ∨ leb b a = true.
Hypothesis leb_trans : ∀ a b c, leb a b = true → leb b c = true → leb a c = true.

Local Abbreviation R := (key_le key leb).
Local Abbreviation ins := (insert_by key leb).
Local Abbreviation srt := (sorted_by key leb).

Lemma insert_by_perm x l : ins x l ≡ₚ x :: l.
Proof.
  induction l as [|y l IH]; simpl; [done|].
  destruct (leb (key x) (key y)); [done|].
  rewrite IH. apply perm_swap.
Qed.

Lemma sorted_by_perm l : srt l ≡ₚ l.
Proof.
  induction l as [|x l IH]; simpl; [done|].
  by rewrite insert_by_perm, IH.
Qed.

Lemma sorted_by_length l : length (srt l) = length l.
Proof. by rewrite sorted_by_perm. Qed.

Lemma insert_by_sorted x l : StronglySorted R l → StronglySorted R (ins x l).
Proof.
  induction 1 as [|y l Hl IH Hy]; simpl.
  - repeat constructor.
  - destruct (leb (key x) (key y)) eqn:Hxy.
    + constructor; [by constructor|].
      constructor; [done|].
      eapply Forall_impl; [exact Hy|]. intros z Hz. by eapply leb_trans.
    + constructor; [done|].
      rewrite insert_by_perm. constructor; [|done].
      destruct (leb_total (key x) (key y)) as [Hc|Hc]; [congruence|done].
Qed.

Lemma sorted_by_sorted l : StronglySorted R (srt l).
Proof.
  induction l as [|x l IH]; simpl; [constructor|].
  by apply insert_by_sorted.
Qed.

(** A list that is in order already is left as it is. *)
Lemma sorted_by_fixed l : StronglySorted R l → srt l = l.
Proof.
  induction 1 as [|x l Hl IH Hx]; simpl; [done|].
  rewrite IH. destruct Hx as [|y l Hxy _]; simpl; [done|].
  unfold key_le in Hxy. by rewrite Hxy.
Qed.

Lemma sorted_by_idemp l : srt (srt l) = srt l.
Proof. apply sorted_by_fixed, sorted_by_sorted. Qed.

(** Stability: the elements of one key keep their input order. *)
Lemma insert_by_filter_key `{!EqDecision K} k x l :
  filter (λ y, key y = k) (ins x l)
  = filter (λ y, key y = k) (x :: l).
Proof.
  induction l as [|y l IH]; simpl; [done|].
  destruct (leb (key x) (key y)) eqn:Hxy; [done|].
  rewrite !filter_cons in *.
  destruct (decide (key y = k)) as [Hy|Hy], (decide (key x = k)) as [Hx|Hx];
    try (by rewrite IH).
  rewrite Hx, <- Hy in Hxy.
  destruct (leb_total (key y) (key y)); congruence.
Qed.

Lemma sorted_by_stable `{!EqDecision K} k l :
  filter (λ y, key y = k) (srt l) = filter (λ y, key y = k) l.
Proof.
  induction l as [|x l IH]; simpl; [done|].
  rewrite insert_by_filter_key, !filter_cons. by rewrite IH.
Qed.
End sorted_by_facts.

Global Instance string_le_antisymm : AntiSymm (=) string_le.
Proof. intros s1 s2. apply String.leb_antisym. Qed.

(** Two strictly ordered key lists with the same elements are the same list. *)
Lemma sorted_keys_unique (l1 l2 : list string) :
  NoDup l1 → NoDup l2 → (∀ k, k ∈ l1 ↔ k ∈ l2) →
  sorted_by id String.leb l1 = sorted_by id String.leb l2.
Proof.
  intros H1 H2 H12.
  apply (StronglySorted_unique string_le).
  - apply (sorted_by_sorted id String.leb String.leb_total string_leb_trans).
  - apply (sorted_by_sorted id String.leb String.leb_total string_leb_trans).
  - rewrite !sorted_by_perm. by apply NoDup_Permutation.
Qed.

(** ** [Counter] *)

Lemma foldl_bump_lookup (codes : list Z) (counts : gmap Z nat) (code : Z) :
  foldl bump counts codes !! code
  = match count_code code codes with
    | O => counts !! code
    | S k => Some (get0 counts code + S k)%nat
    end.
Proof.
  unfold count_code, get0. revert counts.
  induction codes as [|x codes IH]; intros counts; simpl; [done|].
  rewrite IH, filter_cons. destruct (decide (x = code)) as [->|Hne]; simpl.
  - rewrite lookup_insert_eq; simpl.
    destruct (length _); f_equal; lia.
  - by rewrite lookup_insert_ne.
Qed.

Lemma Counter_lookup (codes : list Z) (code : Z) :
  Counter codes !! code
  = match count_code code codes with O => None | S k => Some (S k) end.
Proof.
  unfold Counter. rewrite foldl_bump_lookup. unfold get0.
  by rewrite lookup_empty.
Qed.

Lemma Counter_get0 (codes : list Z) (code : Z) :
  get0 (Counter codes) code = count_code code codes.
Proof. unfold get0. rewrite Counter_lookup. by destruct (count_code _ _). Qed.

Lemma count_code_pos (codes : list Z) (code : Z) :
  (0 < count_code code codes)%nat ↔ code ∈ codes.
Proof.
  unfold count_code. induction codes as [|x codes IH]; simpl.
  - rewrite elem_of_nil. lia.
  - rewrite filter_cons, elem_of_cons.
    destruct (decide (x = code)) as [->|Hne]; simpl; [split; [auto|lia]|].
    rewrite IH. naive_solver.
Qed.

Lemma Counter_dom (codes : list Z) (code : Z) :
  code ∈ dom (Counter codes) ↔ code ∈ codes.
Proof.
  rewrite elem_of_dom, Counter_lookup, <- count_code_pos.
  destruct (count_code _ _); split; intros H; try lia; eauto.
  by destruct H.
Qed.

Lemma tally_sum_bump (counts : gmap Z nat) (code : Z) :
  tally_sum (bump counts code) = S (tally_sum counts).
Proof.
  unfold tally_sum. destruct (counts !! code) as [n|] eqn:Hc; simpl.
  - rewrite <- insert_delete_eq.
    rewrite map_fold_insert_L; [| intros; lia | apply lookup_delete_eq].
    rewrite (map_fold_delete_L _ _ code n counts); [lia | intros; lia | done].
  - rewrite map_fold_insert_L; [lia | intros; lia | done].
Qed.

Lemma tally_sum_foldl (codes : list Z) (counts : gmap Z nat) :
  tally_sum (foldl bump counts codes) = (tally_sum counts + length codes)%nat.
Proof.
  revert counts. induction codes as [|x codes IH]; intros counts; simpl; [lia|].
  rewrite IH, tally_sum_bump. lia.
Qed.

(** The counts of a [Counter] add up to the length of the list counted. *)
Lemma tally_sum_Counter (codes : list Z) : tally_sum (Counter codes) = length codes.
Proof. unfold Counter. rewrite tally_sum_foldl. unfold tally_sum. by rewrite map_fold_empty. Qed.

Lemma count_code_perm (code : Z) (l1 l2 : list Z) :
  l1 ≡ₚ l2 → count_code code l1 = count_code code l2.
Proof. unfold count_code. by intros ->. Qed.

Lemma Counter_perm (l1 l2 : list Z) : l1 ≡ₚ l2 → Counter l1 = Counter l2.
Proof.
  intros H. apply map_eq. intros code.
  by rewrite !Counter_lookup, (count_code_perm code l1 l2 H).
Qed.

(** ** The detector: groups and the perfect pattern *)

Lemma enumerates_elements (s : gset Z) : enumerates (elements s) s.
Proof. split; [apply NoDup_elements | intros; apply elem_of_elements]. Qed.

Lemma required_codes_elem (code : Z) :
  code ∈ required_codes ↔ code = 251 ∨ code = 161 ∨ code = 252.
Proof. unfold required_codes. set_solver. Qed.

Lemma occurrences_group (data : DataFrame) (r : string) (code : Z) :
  occurrences data r code = count_code code (movement_code <$> group_rows data r).
Proof.
  unfold occurrences, count_code, group_rows.
  induction (rows data) as [|row l IH]; simpl; [done|].
  rewrite !filter_cons.
  destruct (decide (repair_number row = r)) as [Hr|Hr]; simpl.
  - rewrite filter_cons.
    destruct (decide (movement_code row = code)) as [Hc|Hc];
      (destruct (decide _) as [[_ ?]|Hn]; [|try (by destruct Hn)]); try done;
      simpl; by rewrite IH.
  - destruct (decide _) as [[? _]|_]; done.
Qed.

Lemma group_rows_length (data : DataFrame) (r : string) :
  (0 < length (group_rows data r))%nat ↔ r ∈ repair_number <$> rows data.
Proof.
  unfold group_rows. induction (rows data) as [|row l IH]; simpl.
  - rewrite elem_of_nil. lia.
  - rewrite filter_cons, elem_of_cons.
    destruct (decide (repair_number row = r)) as [->|Hne]; simpl.
    + split; [auto | lia].
    + rewrite IH. split; [auto | intros [?|?]; [congruence | done]].
Qed.

Lemma group_keys_elem (data : DataFrame) (k : string) :
  k ∈ group_keys data ↔ k ∈ repair_number <$> rows data.
Proof. unfold group_keys. by rewrite sorted_by_perm, elem_of_remove_dups. Qed.

Lemma group_keys_NoDup (data : DataFrame) : NoDup (group_keys data).
Proof. unfold group_keys. rewrite sorted_by_perm. apply NoDup_remove_dups. Qed.

Lemma perfect_tally_get0 (code : Z) :
  get0 perfect_tally code = if decide (code ∈ required_codes) then 1%nat else 0%nat.
Proof.
  unfold get0, perfect_tally. destruct (decide _) as [H|H].
  - apply required_codes_elem in H as [-> | [-> | ->]]; reflexivity.
  - rewrite required_codes_elem in H.
    rewrite !lookup_insert_ne, lookup_singleton_ne by naive_solver. done.
Qed.

Lemma perfect_tally_dom : dom perfect_tally = required_codes.
Proof. reflexivity. Qed.

Lemma Counter_perfect_iff (codes : list Z) :
  Counter codes = perfect_tally
  ↔ ∀ code, count_code code codes = if decide (code ∈ required_codes) then 1%nat else 0%nat.
Proof.
  split.
  - intros H code. by rewrite <- Counter_get0, H, perfect_tally_get0.
  - intros H. apply map_eq. intros code.
    rewrite Counter_lookup, H.
    pose proof (perfect_tally_get0 code) as Hp. unfold get0 in Hp.
    pose proof (elem_of_dom perfect_tally code) as Hd.
    rewrite perfect_tally_dom in Hd.
    destruct (decide (code ∈ required_codes)) as [Hin|Hout].
    + apply Hd in Hin as [n Hn]. rewrite Hn in Hp |- *. simpl in Hp. by subst.
    + destruct (perfect_tally !! code) eqn:E; [|done].
      destruct Hout. apply Hd. eauto.
Qed.

Section detector_facts.
Variable iter : list Z.
Hypothesis iter_ok : enumerates iter required_codes.

(** [is_perfect] holds of a group exactly when its tally is the perfect one. *)
Lemma is_perfect_iff (codes : list Z) :
  is_perfect iter (length codes) (Counter codes) = true ↔ Counter codes = perfect_tally.
Proof.
  destruct iter_ok as [_ Hiter].
  unfold is_perfect. rewrite !andb_true_iff, !bool_decide_eq_true, !forallb_forall.
  split.
  - intros [[_ Hreq] Hdom]. apply Counter_perfect_iff. intros code.
    destruct (decide (code ∈ required_codes)) as [Hin|Hout].
    + rewrite <- Counter_get0.
      eapply bool_decide_eq_true_1, Hreq, list_elem_of_In, Hiter, Hin.
    + destruct (count_code code codes) eqn:E; [done|].
      destruct Hout. eapply bool_decide_eq_true_1, Hdom, list_elem_of_In, elem_of_elements.
      apply Counter_dom, count_code_pos. lia.
  - intros H. rewrite H. split; [split|].
    + by rewrite <- tally_sum_Counter, H.
    + intros code Hc%list_elem_of_In%Hiter. apply bool_decide_eq_true_2.
      rewrite perfect_tally_get0. by rewrite decide_True.
    + intros code Hc%list_elem_of_In%elem_of_elements. apply bool_decide_eq_true_2.
      by rewrite perfect_tally_dom in Hc.
Qed.

Lemma analyse_group_repair (r : string) (g : list Row) (a : AnomalyRecord) :
  analyse_group iter r g = Some a → Repair_Number a = r.
Proof. unfold analyse_group. destruct (is_perfect _ _ _); [done|]. by intros [= <-]. Qed.

Lemma analyse_group_None (data : DataFrame) (r : string) :
  analyse_group iter r (group_rows data r) = None ↔ perfect_repair data r.
Proof.
  unfold analyse_group.
  destruct (is_perfect _ _ _) eqn:E.
  - split; [intros _ | done].
    rewrite length_fmap in E. rewrite <- (length_fmap movement_code) in E.
    apply is_perfect_iff in E. rewrite Counter_perfect_iff in E.
    intros code. by rewrite occurrences_group.
  - split; [done|]. intros H. exfalso.
    assert (is_perfect iter (length (movement_code <$> group_rows data r))
              (Counter (movement_code <$> group_rows data r)) = true) as E'.
    { apply is_perfect_iff, Counter_perfect_iff. intros code.
      rewrite <- occurrences_group. apply H. }
    congruence.
Qed.
End detector_facts.

(** Past the guard the detector goes through the sorted keys, one group each. *)
Lemma find_anomalous_repairs_iter_groups (iter : list Z) (data : DataFrame) :
  has_required_fields data →
  find_anomalous_repairs_iter iter data
  = omap (λ k, analyse_group iter k (group_rows data k)) (group_keys data).
Proof.
  intros [H1 H2]. unfold find_anomalous_repairs_iter, df_empty, groupby.
  rewrite (bool_decide_eq_true_2 _ H1), (bool_decide_eq_true_2 _ H2); simpl.
  rewrite orb_false_r.
  destruct (columns data) as [|c cs] eqn:Hc; [by apply elem_of_nil in H1|].
  rewrite bool_decide_eq_false_2 by done; simpl.
  case_bool_decide as Hrows.
  - unfold group_keys. by rewrite Hrows.
  - simpl. unfold group_rows.
    induction (group_keys data) as [|k ks IH]; csimpl; [done|].
    by rewrite IH.
Qed.

Lemma records_of_key (F : string → option AnomalyRecord) (keys : list string) (r : string) :
  NoDup keys → (∀ k a, F k = Some a → Repair_Number a = k) →
  filter (λ a, Repair_Number a = r) (omap F keys)
  = if decide (r ∈ keys) then option_list (F r) else [].
Proof.
  intros Hnd HF. induction Hnd as [|k ks Hk Hnd IH].
  - by rewrite decide_False by apply not_elem_of_nil.
  - destruct (decide (k = r)) as [->|Hne].
    + rewrite decide_True by apply list_elem_of_here.
      rewrite decide_False in IH by done. csimpl.
      destruct (F r) as [a|] eqn:E; simpl; [|done].
      rewrite filter_cons, decide_True by eauto. by rewrite IH.
    + assert (filter (λ a, Repair_Number a = r) (omap F (k :: ks))
              = filter (λ a, Repair_Number a = r) (omap F ks)) as ->.
      { csimpl. destruct (F k) as [a|] eqn:E; [|done].
        rewrite filter_cons, decide_False; [done|].
        rewrite (HF _ _ E). done. }
      rewrite IH. destruct (decide (r ∈ ks)) as [Hin|Hout].
      * by rewrite decide_True by by apply list_elem_of_further.
      * rewrite decide_False; [done|]. rewrite elem_of_cons. naive_solver.
Qed.

Lemma perfect_repair_iff (data : DataFrame) (r : string) :
  perfect_repair data r
  ↔ length (group_rows data r) = 3%nat
    ∧ (∀ code, code ∈ required_codes → occurrences data r code = 1%nat)
    ∧ (∀ code, occurrences data r code ≠ 0%nat → code ∈ required_codes).
Proof.
  split.
  - intros H. split; [|split].
    + rewrite <- (length_fmap movement_code), <- tally_sum_Counter.
      assert (Counter (movement_code <$> group_rows data r) = perfect_tally) as ->; [|done].
      apply Counter_perfect_iff. intros code. by rewrite <- occurrences_group.
    + intros code Hc. by rewrite H, decide_True.
    + intros code Hc. rewrite H in Hc. by destruct (decide _).
  - intros (_ & Hreq & Hun) code.
    destruct (decide (code ∈ required_codes)) as [Hin|Hout]; [by apply Hreq|].
    destruct (occurrences data r code) eqn:E; [done|].
    destruct Hout. apply Hun. lia.
Qed.

(** C1. On a table that has both required fields, the detector emits
    exactly one record for each repair of the table whose tally is not
    exactly {251: 1, 161: 1, 252: 1}, and no record for a repair whose
    tally is exactly that (nor for an identifier that is not in the table);
    a tally is exactly that mapping when the group has three rows, each
    required code occurs once and no other code occurs. *)
Theorem find_anomalous_repairs_one_per_imperfect_repair (data : DataFrame) (r : string) :
  has_required_fields data →
  let records := filter (λ a, Repair_Number a = r) (find_anomalous_repairs data) in
  (r ∈ repair_number <$> rows data → ¬ perfect_repair data r → ∃ a, records = [a])
  ∧ (perfect_repair data r → records = [])
  ∧ (r ∉ repair_number <$> rows data → records = [])
  ∧ (perfect_repair data r
     ↔ Counter (movement_code <$> group_rows data r) = perfect_tally)
  ∧ (perfect_repair data r
     ↔ length (group_rows data r) = 3%nat
       ∧ (∀ code, code ∈ required_codes → occurrences data r code = 1%nat)
       ∧ (∀ code, occurrences data r code ≠ 0%nat → code ∈ required_codes)).
Proof.
  intros Hf records.
  pose proof (enumerates_elements required_codes) as Hen.
  assert (records = if decide (r ∈ group_keys data)
                    then option_list (analyse_group (elements required_codes) r (group_rows data r))
                    else []) as Hrec.
  { unfold records, find_anomalous_repairs.
    rewrite find_anomalous_repairs_iter_groups by done.
    apply (records_of_key (λ k, analyse_group _ k (group_rows data k))).
    - apply group_keys_NoDup.
    - intros k a. apply analyse_group_repair. }
  pose proof (analyse_group_None _ Hen data r) as Hnone.
  split; [|split; [|split; [|split]]].
  - intros Hin Himp. rewrite Hrec, decide_True by by apply group_keys_elem.
    destruct (analyse_group _ r _) as [a|]; [by exists a|].
    destruct Himp. by apply Hnone.
  - intros Hp. rewrite Hrec. apply Hnone in Hp. rewrite Hp. by destruct (decide _).
  - intros Hout. rewrite Hrec, decide_False; [done|]. by rewrite group_keys_elem.
  - rewrite Counter_perfect_iff. unfold perfect_repair.
    split; intros H code; [rewrite <- occurrences_group | rewrite occurrences_group]; apply H.
  - apply perfect_repair_iff.
Qed.

(** ** The detector: the fields of a record *)

Lemma StronglySorted_filter {A} (R : relation A) (P : A → Prop) `{!∀ x, Decision (P x)} (l : list A) :
  StronglySorted R l → StronglySorted R (filter P l).
Proof.
  induction 1 as [|x l Hl IH Hx]; [constructor|].
  rewrite filter_cons. destruct (decide (P x)); [|done].
  constructor; [done|].
  rewrite Forall_forall in Hx |- *. intros y [_ Hy]%list_elem_of_filter. by apply Hx.
Qed.

Lemma StronglySorted_strict {A} (R : relation A) (l : list A) :
  StronglySorted R l → NoDup l → StronglySorted (λ x y, R x y ∧ x ≠ y) l.
Proof.
  induction 1 as [|x l Hl IH Hx]; intros Hnd; [constructor|].
  apply NoDup_cons in Hnd as [Hx' Hnd].
  constructor; [by apply IH|].
  rewrite Forall_forall in Hx |- *. intros y Hy. split; [by apply Hx|].
  intros ->. done.
Qed.

Global Instance Z_leb_antisymm : AntiSymm (=) (key_le (@id Z) Z.leb).
Proof. intros x y. unfold key_le, id. lia. Qed.

Lemma sorted_perm (l : list Z) : sorted l ≡ₚ l.
Proof. apply sorted_by_perm. Qed.

Lemma sorted_elem (l : list Z) (code : Z) : code ∈ sorted l ↔ code ∈ l.
Proof. by rewrite sorted_perm. Qed.

Lemma sorted_ascending (l : list Z) : StronglySorted (key_le id Z.leb) (sorted l).
Proof. apply sorted_by_sorted; [apply Z_leb_total | apply Z_leb_trans]. Qed.

(** Without repetitions in the input, the result is strictly ascending. *)
Lemma sorted_strictly_ascending (l : list Z) : NoDup l → StronglySorted Z.lt (sorted l).
Proof.
  intros Hnd.
  assert (StronglySorted (λ x y, key_le id Z.leb x y ∧ x ≠ y) (sorted l)) as H.
  { apply StronglySorted_strict; [apply sorted_ascending | by rewrite sorted_perm]. }
  induction H as [|x k Hk IH Hx]; constructor; [done|].
  eapply Forall_impl; [exact Hx|]. unfold key_le, id. intros y [? ?]. lia.
Qed.

(** Whatever the order of visit, sorting the selected required codes gives
    them in ascending order. *)
Lemma sorted_filter_required (iter : list Z) (P : Z → Prop) `{!∀ x, Decision (P x)} :
  enumerates iter required_codes →
  sorted (filter P iter) = filter P required_ascending.
Proof.
  intros [Hnd Hiter].
  apply (StronglySorted_unique (key_le id Z.leb)).
  - apply sorted_ascending.
  - apply StronglySorted_filter. unfold required_ascending.
    repeat constructor; unfold key_le, id; lia.
  - rewrite sorted_perm. apply NoDup_Permutation.
    + by apply NoDup_filter.
    + apply NoDup_filter. unfold required_ascending.
      repeat (constructor; [set_solver|]). constructor.
    + intros code. rewrite !list_elem_of_filter, Hiter, required_codes_elem.
      unfold required_ascending. set_solver.
Qed.

Lemma find_anomalous_repairs_iter_fields (iter : list Z) (data : DataFrame) (a : AnomalyRecord) :
  a ∈ find_anomalous_repairs_iter iter data → has_required_fields data.
Proof.
  unfold find_anomalous_repairs_iter, has_required_fields.
  do 2 case_bool_decide; try done; simpl;
    rewrite ?orb_true_r; simpl; by intros ?%elem_of_nil.
Qed.

(** Where a record comes from: the group of its repair number, which is
    a repair of the table and is not perfect. *)
Lemma anomaly_record_origin (iter : list Z) (data : DataFrame) (a : AnomalyRecord) :
  a ∈ find_anomalous_repairs_iter iter data →
  Repair_Number a ∈ repair_number <$> rows data
  ∧ analyse_group iter (Repair_Number a) (group_rows data (Repair_Number a)) = Some a.
Proof.
  intros Ha. pose proof (find_anomalous_repairs_iter_fields _ _ _ Ha) as Hf.
  rewrite find_anomalous_repairs_iter_groups in Ha by done.
  apply list_elem_of_omap in Ha as (k & Hk & Hg).
  pose proof Hg as Hr. unfold analyse_group in Hr.
  destruct (is_perfect _ _ _); [done|]. injection Hr as <-. simpl.
  split; [by apply group_keys_elem | done].
Qed.

Lemma anomaly_record_shape (iter : list Z) (data : DataFrame) (a : AnomalyRecord) :
  enumerates iter required_codes →
  a ∈ find_anomalous_repairs_iter iter data →
  let r := Repair_Number a in
  let codes := movement_code <$> group_rows data r in
  r ∈ repair_number <$> rows data
  ∧ Movement_Codes_Found a = Counter codes
  ∧ Missing_Codes a = filter (λ code, get0 (Counter codes) code = 0%nat) required_ascending
  ∧ Extra_Codes a = filter (λ code, (1 < get0 (Counter codes) code)%nat) required_ascending
  ∧ Unexpected_Codes a
    = sorted (filter (λ code, code ∉ required_codes) (elements (dom (Counter codes))))
  ∧ Total_Count a = length codes.
Proof.
  intros Hen Ha. apply anomaly_record_origin in Ha as [Hin Hg].
  cbv zeta. split; [done|]. unfold analyse_group in Hg.
  destruct (is_perfect _ _ _); [done|].
  rewrite !(sorted_filter_required iter _ Hen) in Hg.
  injection Hg as Hg. by rewrite <- Hg.
Qed.

(** C2. Every record the detector emits lists, for its repair number:
    the required codes that do not occur, in ascending order; the required
    codes that occur more than once, in ascending order; the codes that
    occur and are not required, in strictly ascending order; the raw count
    of every code that occurs; and, as total, the sum of those counts,
    which is the number of rows of the repair. *)
Theorem anomaly_record_fields (data : DataFrame) (a : AnomalyRecord) :
  a ∈ find_anomalous_repairs data →
  let r := Repair_Number a in
  Missing_Codes a = filter (λ code, occurrences data r code = 0%nat) required_ascending
  ∧ Extra_Codes a = filter (λ code, (1 < occurrences data r code)%nat) required_ascending
  ∧ StronglySorted Z.lt (Unexpected_Codes a)
  ∧ (∀ code, code ∈ Unexpected_Codes a
             ↔ (0 < occurrences data r code)%nat ∧ code ∉ required_codes)
  ∧ (∀ code, Movement_Codes_Found a !! code
             = match occurrences data r code with O => None | S k => Some (S k) end)
  ∧ Total_Count a = tally_sum (Movement_Codes_Found a)
  ∧ Total_Count a = length (group_rows data r).
Proof.
  intros Ha r.
  destruct (anomaly_record_shape _ data a (enumerates_elements _) Ha)
    as (_ & Hfound & Hmiss & Hextra & Hun & Htotal).
  fold r in Hfound, Hmiss, Hextra, Hun, Htotal.
  split; [|split; [|split; [|split; [|split; [|split]]]]].
  - rewrite Hmiss. apply list_filter_iff. intros code.
    by rewrite Counter_get0, occurrences_group.
  - rewrite Hextra. apply list_filter_iff. intros code.
    by rewrite Counter_get0, occurrences_group.
  - rewrite Hun. apply sorted_strictly_ascending, NoDup_filter, NoDup_elements.
  - intros code. rewrite Hun, sorted_elem, list_elem_of_filter, elem_of_elements.
    rewrite Counter_dom, <- count_code_pos, <- occurrences_group. tauto.
  - intros code. by rewrite Hfound, Counter_lookup, occurrences_group.
  - by rewrite Hfound, Htotal, tally_sum_Counter.
  - by rewrite Htotal, length_fmap.
Qed.

(** C10. In every record the detector emits, the missing codes and the
    excess codes are required codes and no code is both; the unexpected
    codes are not required codes; a missing code has count 0 in the tally
    of the record, an excess code a count above 1, an unexpected code a
    count of at least 1; and the total is at least 1. *)
Theorem anomaly_record_invariant (data : DataFrame) (a : AnomalyRecord) :
  a ∈ find_anomalous_repairs data →
  (∀ code, code ∈ Missing_Codes a →
     code ∈ required_codes ∧ (code ∉ Extra_Codes a)
     ∧ Movement_Codes_Found a !! code = None ∧ get0 (Movement_Codes_Found a) code = 0%nat)
  ∧ (∀ code, code ∈ Extra_Codes a →
     code ∈ required_codes ∧ (code ∉ Missing_Codes a)
     ∧ ∃ n, Movement_Codes_Found a !! code = Some n ∧ (1 < n)%nat)
  ∧ (∀ code, code ∈ Unexpected_Codes a →
     (code ∉ required_codes)
     ∧ ∃ n, Movement_Codes_Found a !! code = Some n ∧ (1 ≤ n)%nat)
  ∧ (1 ≤ Total_Count a)%nat.
Proof.
  intros Ha.
  destruct (anomaly_record_shape _ data a (enumerates_elements _) Ha)
    as (Hin & Hfound & Hmiss & Hextra & Hun & Htotal).
  set (codes := movement_code <$> group_rows data (Repair_Number a)) in *.
  assert (∀ code, code ∈ required_ascending → code ∈ required_codes) as Hreq.
  { intros code. rewrite required_codes_elem. unfold required_ascending. set_solver. }
  split; [|split; [|split]].
  - intros code. rewrite Hmiss, Hextra, Hfound, !list_elem_of_filter.
    intros [H0 Hc]. split; [by apply Hreq|]. split; [lia|]. split; [|done].
    unfold get0 in H0. destruct (Counter codes !! code) as [n|] eqn:E; [|done].
    rewrite Counter_lookup in E. destruct (count_code code codes); simplify_eq/=.
  - intros code. rewrite Hmiss, Hextra, Hfound, !list_elem_of_filter.
    intros [H1 Hc]. split; [by apply Hreq|]. split; [lia|].
    unfold get0 in H1. destruct (Counter codes !! code) as [n|]; simpl in H1; [|lia].
    by exists n.
  - intros code. rewrite Hun, Hfound, sorted_elem, list_elem_of_filter, elem_of_elements.
    intros [Hout Hdom]. split; [done|].
    apply elem_of_dom in Hdom as [n Hn]. exists n. split; [done|].
    rewrite Counter_lookup in Hn. destruct (count_code code codes); simplify_eq/=. lia.
  - rewrite Htotal. unfold codes. rewrite length_fmap.
    by apply group_rows_length.
Qed.

Lemma find_anomalous_repairs_iter_guard (iter : list Z) (data : DataFrame) :
  rows data = [] ∨ "Repair Number" ∉ columns data ∨ "Movement Code" ∉ columns data →
  find_anomalous_repairs_iter iter data = [].
Proof.
  unfold find_anomalous_repairs_iter, df_empty. intros [H|[H|H]].
  - by rewrite (bool_decide_eq_true_2 _ H), orb_true_r.
  - by rewrite (bool_decide_eq_false_2 _ H), orb_true_r.
  - by rewrite (bool_decide_eq_false_2 _ H), orb_true_r.
Qed.

(** C6. When the table has no rows, or lacks the column 'Repair Number' or
    the column 'Movement Code', the detector returns the empty list. *)
Theorem find_anomalous_repairs_invalid_input (data : DataFrame) :
  rows data = [] ∨ "Repair Number" ∉ columns data ∨ "Movement Code" ∉ columns data →
  find_anomalous_repairs data = [].
Proof. apply find_anomalous_repairs_iter_guard. Qed.

(** ** The detector: order of the rows, order of visit of the set *)

Lemma analyse_group_perm (iter : list Z) (r : string) (g1 g2 : list Row) :
  g1 ≡ₚ g2 → analyse_group iter r g1 = analyse_group iter r g2.
Proof.
  intros Hg. unfold analyse_group.
  assert (movement_code <$> g1 ≡ₚ movement_code <$> g2) as Hc by by rewrite Hg.
  by rewrite (Counter_perm _ _ Hc), (Permutation_length Hc).
Qed.

Lemma group_keys_perm (d1 d2 : DataFrame) :
  rows d1 ≡ₚ rows d2 → group_keys d1 = group_keys d2.
Proof.
  intros Hp. apply sorted_keys_unique; try apply NoDup_remove_dups.
  intros k. by rewrite !elem_of_remove_dups, Hp.
Qed.

Lemma omap_pointwise {A B} (F G : A → option B) (l : list A) :
  (∀ x, x ∈ l → F x = G x) → omap F l = omap G l.
Proof.
  induction l as [|x l IH]; intros H; csimpl; [done|].
  rewrite (H x) by apply list_elem_of_here.
  rewrite IH; [done|]. intros y Hy. apply H. by apply list_elem_of_further.
Qed.

Lemma find_anomalous_repairs_iter_perm (iter : list Z) (d1 d2 : DataFrame) :
  columns d1 = columns d2 → rows d1 ≡ₚ rows d2 →
  find_anomalous_repairs_iter iter d1 = find_anomalous_repairs_iter iter d2.
Proof.
  intros Hc Hp.
  destruct (decide ("Repair Number" ∈ columns d1)) as [H1|H1];
    [destruct (decide ("Movement Code" ∈ columns d1)) as [H2|H2]|].
  - rewrite !find_anomalous_repairs_iter_groups by (split; congruence).
    rewrite (group_keys_perm d1 d2 Hp). apply omap_pointwise. intros k _.
    apply analyse_group_perm. unfold group_rows. by rewrite Hp.
  - rewrite !find_anomalous_repairs_iter_guard; [done| |]; right; right; congruence.
  - rewrite !find_anomalous_repairs_iter_guard; [done| |]; right; left; congruence.
Qed.

(** C7. Reordering the rows of a table does not change what the detector
    returns: the same records, field by field (and in the same order, the
    groups being visited by ascending key). *)
Theorem find_anomalous_repairs_permutation (d1 d2 : DataFrame) :
  columns d1 = columns d2 → rows d1 ≡ₚ rows d2 →
  find_anomalous_repairs d1 = find_anomalous_repairs d2
  ∧ ∀ a, a ∈ find_anomalous_repairs d1 ↔ a ∈ find_anomalous_repairs d2.
Proof.
  intros Hc Hp.
  assert (find_anomalous_repairs d1 = find_anomalous_repairs d2) as H
    by by apply find_anomalous_repairs_iter_perm.
  split; [done|]. intros a. by rewrite H.
Qed.

Lemma analyse_group_iter (iter1 iter2 : list Z) (r : string) (g : list Row) :
  enumerates iter1 required_codes → enumerates iter2 required_codes →
  analyse_group iter1 r g = analyse_group iter2 r g.
Proof.
  intros H1 H2. unfold analyse_group.
  assert (is_perfect iter1 (length (movement_code <$> g)) (Counter (movement_code <$> g))
          = is_perfect iter2 (length (movement_code <$> g)) (Counter (movement_code <$> g)))
    as ->.
  { apply eq_true_iff_eq. by rewrite !is_perfect_iff. }
  by rewrite !(sorted_filter_required iter1 _ H1), !(sorted_filter_required iter2 _ H2).
Qed.

Lemma find_anomalous_repairs_iter_order (iter1 iter2 : list Z) (data : DataFrame) :
  enumerates iter1 required_codes → enumerates iter2 required_codes →
  find_anomalous_repairs_iter iter1 data = find_anomalous_repairs_iter iter2 data.
Proof.
  intros H1 H2. unfold find_anomalous_repairs_iter.
  destruct (_ || _ || _); [done|].
  apply omap_pointwise. intros g _. by apply analyse_group_iter.
Qed.

(** ** Strings *)

Lemma string_app_nil_r (s : string) : s +:+ "" = s.
Proof. induction s as [|c s IH]; [done|]. unfold String.app; fold String.app. by rewrite IH. Qed.

Lemma string_app_assoc (s1 s2 s3 : string) : (s1 +:+ s2) +:+ s3 = s1 +:+ s2 +:+ s3.
Proof.
  induction s1 as [|c s1 IH]; [done|].
  unfold String.app; fold String.app. by rewrite IH.
Qed.

Lemma concat_empty_cons (x : string) (l : list string) :
  String.concat "" (x :: l) = x +:+ String.concat "" l.
Proof. destruct l; simpl; [by rewrite string_app_nil_r | done]. Qed.

Lemma concat_empty_app (l1 l2 : list string) :
  String.concat "" (l1 ++ l2) = String.concat "" l1 +:+ String.concat "" l2.
Proof.
  induction l1 as [|x l1 IH]; [done|].
  rewrite <- app_comm_cons, !concat_empty_cons, IH. by rewrite string_app_assoc.
Qed.

Lemma join_cons (sep x : string) (l : list string) :
  join sep (x :: l) = x +:+ match l with [] => "" | _ => sep +:+ join sep l end.
Proof. destruct l; simpl; [by rewrite string_app_nil_r | done]. Qed.

(** ** The report writer *)

Lemma by_repair_number_perm (l : list AnomalyRecord) : by_repair_number l ≡ₚ l.
Proof. apply sorted_by_perm. Qed.

Lemma by_repair_number_ascending (l : list AnomalyRecord) :
  StronglySorted string_le (Repair_Number <$> by_repair_number l).
Proof.
  apply (StronglySorted_fmap _ (key_le Repair_Number String.leb)); [done|].
  apply sorted_by_sorted; [apply String.leb_total | apply string_leb_trans].
Qed.

Lemma by_repair_number_idemp (l : list AnomalyRecord) :
  by_repair_number (by_repair_number l) = by_repair_number l.
Proof. apply sorted_by_idemp; [apply String.leb_total | apply string_leb_trans]. Qed.

Lemma by_repair_number_nil (l : list AnomalyRecord) : by_repair_number l = [] ↔ l = [].
Proof.
  split; [|by intros ->]. intros H.
  apply Permutation_nil_r. by rewrite <- H, by_repair_number_perm.
Qed.

(** What the loop of writes does: either every call returns and all the
    chunks are handed over, or the chunks in front of the first call that
    raises are. *)
Lemma write_chunks_spec (os : Os) (done chunks : list string) :
  match write_chunks os done chunks with
  | (out, None) =>
      out = done ++ chunks
      ∧ ∀ pre chunk rest, chunks = pre ++ chunk :: rest → f_write os (done ++ pre) chunk = None
  | (out, Some e) =>
      ∃ pre chunk rest,
        chunks = pre ++ chunk :: rest ∧ out = done ++ pre
        ∧ f_write os (done ++ pre) chunk = Some e
  end.
Proof.
  revert done. induction chunks as [|c chunks IH]; intros done; simpl.
  - split; [by rewrite app_nil_r|]. intros pre chunk rest H. by destruct pre.
  - destruct (f_write os done c) as [e|] eqn:Hw.
    + exists [], c, chunks. by rewrite app_nil_r.
    + specialize (IH (done ++ [c])).
      destruct (write_chunks os (done ++ [c]) chunks) as [out [e|]].
      * destruct IH as (pre & chunk & rest & -> & -> & Hr).
        exists (c :: pre), chunk, rest. by rewrite <- !app_assoc in *.
      * destruct IH as [-> Hall]. split; [by rewrite <- app_assoc|].
        intros [|c' pre] chunk rest H; simplify_eq/=; [by rewrite app_nil_r|].
        specialize (Hall pre chunk rest eq_refl). by rewrite <- app_assoc in Hall.
Qed.

Lemma write_chunks_accepts (os : Os) (chunks : list string) :
  accepts os chunks ↔ write_chunks os [] chunks = (chunks, None).
Proof.
  pose proof (write_chunks_spec os [] chunks) as H.
  destruct (write_chunks os [] chunks) as [out [e|]]; simpl in H.
  - destruct H as (pre & chunk & rest & Hc & _ & Hr). split; [|done].
    intros Ha. rewrite (Ha _ _ _ Hc) in Hr. done.
  - destruct H as [-> Hall]. split; [done|]. intros _. exact Hall.
Qed.

Lemma write_chunks_take (os : Os) (chunks : list string) :
  ∃ n, (write_chunks os [] chunks).1 = take n chunks.
Proof.
  pose proof (write_chunks_spec os [] chunks) as H.
  destruct (write_chunks os [] chunks) as [out [e|]]; simpl in *.
  - destruct H as (pre & chunk & rest & -> & -> & _).
    exists (length pre). by rewrite take_app_length.
  - destruct H as [-> _]. exists (length chunks). by rewrite firstn_all.
Qed.

Lemma rule60_repeat : str_repeat "=" 60 = rule60.
Proof. reflexivity. Qed.

Lemma report_writes_chunks (l : list AnomalyRecord) (path : string) :
  (report_writes l path).1 = report_chunks l.
Proof. by destruct l. Qed.


Lemma write_results_to_file_after (l : list AnomalyRecord) (path : string) (os : Os) :
  anomalies_after (write_results_to_file l path os)
  = match prepare_dir os path with Some _ => l | None => by_repair_number l end.
Proof.
  unfold write_results_to_file, by_repair_number.
  destruct (prepare_dir os path); [done|]. destruct (open_w os path); [done|].
  destruct (report_writes _ _) as [chunks st]. destruct (write_chunks os [] chunks) as [out r].
  by destruct (f_close os out), r.
Qed.

(** The text handed over is that of the chunks whose write returned. *)
Lemma write_results_to_file_written (l : list AnomalyRecord) (path : string) (os : Os) :
  written (write_results_to_file l path os)
  = if opens os path
    then Some (String.concat ""
                 (write_chunks os [] (report_chunks (by_repair_number l))).1)
    else None.
Proof.
  unfold opens, write_results_to_file. fold (by_repair_number l).
  destruct (prepare_dir os path); [done|]. destruct (open_w os path); [done|].
  pose proof (report_writes_chunks (by_repair_number l) path) as Hc.
  destruct (report_writes _ _) as [chunks st]. simpl in Hc. subst chunks.
  destruct (write_chunks os [] _) as [out r]. by destruct (f_close os out), r.
Qed.

Lemma written_prefix (l : list AnomalyRecord) (path : string) (os : Os) (text : string) :
  written (write_results_to_file l path os) = Some text →
  ∃ n, text = String.concat "" (take n (report_chunks (by_repair_number l))).
Proof.
  rewrite write_results_to_file_written. destruct (opens os path); [|done].
  intros [= <-]. destruct (write_chunks_take os (report_chunks (by_repair_number l))) as [n ->].
  by exists n.
Qed.

(** A call during which nothing raises, and a call during which something
    does. *)
Lemma write_results_to_file_cases (l : list AnomalyRecord) (path : string) (os : Os) :
  (completes os l path
   ∧ write_results_to_file l path os
     = mkOutcome (by_repair_number l)
         (Some (String.concat "" (report_chunks (by_repair_number l))))
         (report_writes (by_repair_number l) path).2)
  ∨ (¬ completes os l path
     ∧ ∃ e, status_message (write_results_to_file l path os) = error_message path e).
Proof.
  unfold completes, opens, write_results_to_file. fold (by_repair_number l).
  destruct (prepare_dir os path) as [e|]; [right; split; [by intros [? _]|by exists e]|].
  destruct (open_w os path) as [e|]; [right; split; [by intros [? _]|by exists e]|].
  pose proof (report_writes_chunks (by_repair_number l) path) as Hc.
  destruct (report_writes _ _) as [chunks st]. simpl in Hc. subst chunks. simpl.
  pose proof (write_chunks_accepts os (report_chunks (by_repair_number l))) as Ha.
  pose proof (write_chunks_spec os [] (report_chunks (by_repair_number l))) as Hs.
  destruct (write_chunks os [] _) as [out [e|]].
  - right. split.
    + intros (_ & Hacc & _). apply Ha in Hacc. done.
    + destruct (f_close os out) as [e'|]; [by exists e' | by exists e].
  - destruct Hs as [Hout _]. simpl in Hout. subst out.
    destruct (f_close os _) as [e'|] eqn:Hcl.
    + right. split; [by intros (_ & _ & ?) | by exists e'].
    + left. split; [|done]. split; [done|]. split; [by apply Ha | done].
Qed.

Lemma write_results_to_file_completes (l : list AnomalyRecord) (path : string) (os : Os) :
  completes os l path →
  write_results_to_file l path os
  = mkOutcome (by_repair_number l)
      (Some (String.concat "" (report_chunks (by_repair_number l))))
      (report_writes (by_repair_number l) path).2.
Proof.
  intros Hc. by destruct (write_results_to_file_cases l path os) as [[_ H]|[H _]].
Qed.

(** The text of a report on a non-empty list, chunk after chunk. *)
Lemma report_chunks_text (l : list AnomalyRecord) :
  l ≠ [] →
  String.concat "" (report_chunks l)
  = report_header
    +:+ String.concat "" ((λ a, anomaly_line a +:+ nl) <$> l)
    +:+ report_footer (length l).
Proof.
  intros Hl. destruct l as [|a l]; [done|].
  unfold report_chunks, report_header, report_footer.
  rewrite !concat_empty_app, !concat_empty_cons.
  change (String.concat "" []) with "".
  by rewrite !string_app_assoc, !string_app_nil_r.
Qed.

(** The chunks do not depend on the order in which the list came. *)
Lemma completes_sorted (os : Os) (l : list AnomalyRecord) (path : string) :
  completes os (by_repair_number l) path ↔ completes os l path.
Proof. unfold completes. by rewrite by_repair_number_idemp. Qed.

Lemma plain_os_completes (l : list AnomalyRecord) :
  completes plain_os l "flagged_repairs_detailed.txt".
Proof. split; [reflexivity|]. split; [intros done chunk rest _; reflexivity | reflexivity]. Defined.

Lemma anomaly_line_clauses (a : AnomalyRecord) : anomaly_line a = join ", " (clauses a).
Proof.
  unfold anomaly_line, clauses.
  by destruct (Missing_Codes a), (Extra_Codes a), (Unexpected_Codes a).
Qed.

Lemma anomaly_line_repair (a : AnomalyRecord) :
  ∃ rest, anomaly_line a = "Repair: " +:+ Repair_Number a +:+ rest.
Proof.
  rewrite anomaly_line_clauses. unfold clauses.
  rewrite <- app_comm_cons, join_cons, string_app_assoc. eauto.
Qed.




(** C4. Whatever the order of the list received, the lines of the
    anomalies are written in ascending order of repair number (as strings):
    the writer walks a rearrangement of the list whose repair numbers
    ascend and hands over the chunks of the report on it, one line for each
    anomaly in that order, from the first chunk on (all of them when no
    file operation raises); each line starts with the repair number of its
    anomaly; and two lists that are rearrangements of each other give the
    same sequence of repair numbers. *)
Theorem report_lines_ascending (l : list AnomalyRecord) (path : string) (os : Os) :
  ∃ ordered,
    ordered ≡ₚ l
    ∧ StronglySorted string_le (Repair_Number <$> ordered)
    ∧ (∀ text, written (write_results_to_file l path os) = Some text →
         ∃ n, text = String.concat "" (take n (report_chunks ordered)))
    ∧ (completes os l path →
         written (write_results_to_file l path os)
         = Some (String.concat "" (report_chunks ordered)))
    ∧ (∀ a, ∃ rest, anomaly_line a = "Repair: " +:+ Repair_Number a +:+ rest)
    ∧ (∀ l' ordered',
         l' ≡ₚ l → ordered' ≡ₚ l' → StronglySorted string_le (Repair_Number <$> ordered') →
         Repair_Number <$> ordered' = Repair_Number <$> ordered).
Proof.
  exists (by_repair_number l).
  split; [apply by_repair_number_perm|].
  split; [apply by_repair_number_ascending|].
  split; [intros text; apply written_prefix|].
  split; [intros Hc; by rewrite write_results_to_file_completes|].
  split; [apply anomaly_line_repair|].
  intros l' ordered' Hl' Ho' Hs'.
  apply (StronglySorted_unique string_le); [done | apply by_repair_number_ascending |].
  by rewrite Ho', Hl', by_repair_number_perm.
Qed.



Example find_anomalous_repairs_sample :
  find_anomalous_repairs sample = [anomaly_R2; anomaly_R3; anomaly_R4].
Proof. vm_compute. reflexivity. Qed.



(** C8. Both operations are functions of their input. The detector returns
    the same records whatever the order in which the set of required codes
    is visited, the one order Python leaves open. The writer, run a second
    time on the list as its first run left it, writes the same text and
    returns the same message: with the same answers of the operating
    system, and also with other answers as long as no file operation raises
    in either run. *)
Theorem detect_and_format_deterministic :
  (∀ iter1 iter2 data,
     enumerates iter1 required_codes → enumerates iter2 required_codes →
     find_anomalous_repairs_iter iter1 data = find_anomalous_repairs_iter iter2 data)
  ∧ (∀ l path os,
       let first := write_results_to_file l path os in
       let second := write_results_to_file (anomalies_after first) path os in
       written second = written first
       ∧ status_message second = status_message first
       ∧ anomalies_after second = anomalies_after first)
  ∧ (∀ l path os1 os2,
       completes os1 l path → completes os2 l path →
       let first := write_results_to_file l path os1 in
       let second := write_results_to_file (anomalies_after first) path os2 in
       is_Some (written first)
       ∧ written second = written first
       ∧ status_message second = status_message first
       ∧ anomalies_after second = anomalies_after first).
Proof.
  split; [apply find_anomalous_repairs_iter_order|]. split.
  - intros l path os. cbv zeta.
    assert (write_results_to_file (anomalies_after (write_results_to_file l path os)) path os
            = write_results_to_file l path os) as H; [|by rewrite H].
    rewrite write_results_to_file_after. unfold write_results_to_file.
    destruct (prepare_dir os path); [done|].
    fold (by_repair_number l). fold (by_repair_number (by_repair_number l)).
    by rewrite by_repair_number_idemp.
  - intros l path os1 os2 H1 H2. cbv zeta.
    rewrite (write_results_to_file_completes l path os1 H1). simpl.
    apply completes_sorted in H2.
    rewrite (write_results_to_file_completes _ path os2 H2). simpl.
    rewrite by_repair_number_idemp. eauto.
Qed.

(** ** The theorems at work on sample tables *)

Lemma sample_has_required_fields : has_required_fields sample.
Proof. split; apply (bool_decide_unpack _); vm_compute; exact I. Defined.

Lemma find_anomalous_repairs_one_per_imperfect_repair_witness :
  has_required_fields sample
  ∧ (∃ a, filter (λ a, Repair_Number a = "R2") (find_anomalous_repairs sample) = [a])
  ∧ filter (λ a, Repair_Number a = "R9") (find_anomalous_repairs sample) = [].
Proof.
  split; [exact sample_has_required_fields|].
  destruct (find_anomalous_repairs_one_per_imperfect_repair sample "R2"
              sample_has_required_fields) as (H2 & _).
  destruct (find_anomalous_repairs_one_per_imperfect_repair sample "R9"
              sample_has_required_fields) as (_ & _ & H9 & _).
  split.
  - apply H2.
    + apply (bool_decide_unpack _). vm_compute. exact I.
    + intros H. specialize (H 252). vm_compute in H. discriminate H.
  - apply H9. apply (bool_decide_unpack _). vm_compute. exact I.
Defined.

Lemma anomaly_R2_found : anomaly_R2 ∈ find_anomalous_repairs sample.
Proof. rewrite find_anomalous_repairs_sample. apply list_elem_of_here. Defined.

Lemma anomaly_record_fields_witness :
  anomaly_R2 ∈ find_anomalous_repairs sample
  ∧ Missing_Codes anomaly_R2
    = filter (λ code, occurrences sample "R2" code = 0%nat) required_ascending
  ∧ Total_Count anomaly_R2 = tally_sum (Movement_Codes_Found anomaly_R2).
Proof.
  split; [exact anomaly_R2_found|].
  destruct (anomaly_record_fields sample anomaly_R2 anomaly_R2_found)
    as (Hm & _ & _ & _ & _ & Ht & _).
  split; [exact Hm | exact Ht].
Defined.

Lemma anomaly_record_invariant_witness :
  anomaly_R2 ∈ find_anomalous_repairs sample ∧ (1 ≤ Total_Count anomaly_R2)%nat.
Proof.
  split; [exact anomaly_R2_found|].
  apply (anomaly_record_invariant sample anomaly_R2 anomaly_R2_found).
Defined.

Lemma find_anomalous_repairs_invalid_input_witness :
  (rows no_rows = [] ∨ "Repair Number" ∉ columns no_rows ∨ "Movement Code" ∉ columns no_rows)
  ∧ find_anomalous_repairs no_rows = [].
Proof.
  assert (rows no_rows = [] ∨ "Repair Number" ∉ columns no_rows
          ∨ "Movement Code" ∉ columns no_rows) as H by (left; reflexivity).
  split; [exact H|]. exact (find_anomalous_repairs_invalid_input no_rows H).
Defined.

Lemma find_anomalous_repairs_permutation_witness :
  columns three_rows = columns three_rows_swapped
  ∧ rows three_rows ≡ₚ rows three_rows_swapped
  ∧ find_anomalous_repairs three_rows = find_anomalous_repairs three_rows_swapped.
Proof.
  assert (rows three_rows ≡ₚ rows three_rows_swapped) as Hp by apply perm_swap.
  split; [reflexivity|]. split; [exact Hp|].
  apply (find_anomalous_repairs_permutation three_rows three_rows_swapped eq_refl Hp).
Defined.

Lemma report_lines_ascending_witness :
  ∃ ordered,
    ordered ≡ₚ [anomaly_R3; anomaly_R2]
    ∧ StronglySorted string_le (Repair_Number <$> ordered)
    ∧ Repair_Number <$> [anomaly_R2; anomaly_R3] = Repair_Number <$> ordered.
Proof.
  destruct (report_lines_ascending [anomaly_R3; anomaly_R2] "flagged_repairs_detailed.txt"
              plain_os) as (ordered & Hp & Hs & _ & _ & _ & Hu).
  exists ordered. split; [exact Hp|]. split; [exact Hs|].
  apply (Hu [anomaly_R2; anomaly_R3] [anomaly_R2; anomaly_R3]).
  - apply perm_swap.
  - reflexivity.
  - repeat constructor.
Defined.


Lemma enumerates_literal_order : enumerates [251; 161; 252] required_codes.
Proof.
  split; [repeat (constructor; [set_solver|]); constructor|].
  intros code. rewrite required_codes_elem. set_solver.
Defined.

Lemma enumerates_ascending_order : enumerates [161; 251; 252] required_codes.
Proof.
  split; [repeat (constructor; [set_solver|]); constructor|].
  intros code. rewrite required_codes_elem. set_solver.
Defined.

Lemma detect_and_format_deterministic_witness :
  enumerates [251; 161; 252] required_codes
  ∧ enumerates [161; 251; 252] required_codes
  ∧ find_anomalous_repairs_iter [251; 161; 252] sample
    = find_anomalous_repairs_iter [161; 251; 252] sample
  ∧ completes plain_os [anomaly_R3; anomaly_R2] "flagged_repairs_detailed.txt"
  ∧ written (write_results_to_file
               (anomalies_after
                  (write_results_to_file [anomaly_R3; anomaly_R2]
                     "flagged_repairs_detailed.txt" plain_os))
               "flagged_repairs_detailed.txt" plain_os)
    = written (write_results_to_file [anomaly_R3; anomaly_R2]
                 "flagged_repairs_detailed.txt" plain_os).
Proof.
  destruct detect_and_format_deterministic as (Hdetect & _ & Hformat).
  split; [exact enumerates_literal_order|]. split; [exact enumerates_ascending_order|].
  split; [exact (Hdetect _ _ sample enumerates_literal_order enumerates_ascending_order)|].
  split; [exact (plain_os_completes _)|].
  apply (Hformat [anomaly_R3; anomaly_R2] "flagged_repairs_detailed.txt" plain_os plain_os
           (plain_os_completes _) (plain_os_completes _)).
Defined.

(** * Further properties of the code *)

(** ** The detector: order and size of the result *)

Lemma string_leb_ne_ltb (s1 s2 : string) :
  String.leb s1 s2 = true → s1 ≠ s2 → String.ltb s1 s2 = true.
Proof.
  unfold String.leb, String.ltb.
  destruct (String.compare s1 s2) eqn:E; try done.
  intros _ Hne. by apply String.compare_eq_iff in E.
Qed.

(** The groups are visited by strictly ascending key. *)
Lemma group_keys_ascending (data : DataFrame) : StronglySorted string_lt (group_keys data).
Proof.
  assert (StronglySorted (λ x y, key_le id String.leb x y ∧ x ≠ y) (group_keys data)) as H.
  { apply StronglySorted_strict; [|apply group_keys_NoDup].
    apply sorted_by_sorted; [apply String.leb_total | apply string_leb_trans]. }
  induction H as [|k ks Hks IH Hk]; constructor; [done|].
  eapply Forall_impl; [exact Hk|]. intros k' [? ?]. by apply string_leb_ne_ltb.
Qed.

(** Records made from a list of keys come in the order of their keys. *)
Lemma omap_keys_sorted (R : relation string) (F : string → option AnomalyRecord)
    (keys : list string) :
  (∀ k a, F k = Some a → Repair_Number a = k) →
  StronglySorted R keys →
  StronglySorted R (Repair_Number <$> omap F keys).
Proof.
  intros HF. induction 1 as [|k ks Hks IH Hk]; csimpl; [constructor|].
  destruct (F k) as [a|] eqn:E; csimpl; [|done].
  constructor; [done|]. rewrite (HF _ _ E).
  rewrite Forall_forall in Hk |- *.
  intros r (b & -> & (k' & Hk' & Hb)%list_elem_of_omap)%list_elem_of_fmap.
  rewrite (HF _ _ Hb). by apply Hk.
Qed.

Lemma find_anomalous_repairs_iter_cases (iter : list Z) (data : DataFrame) :
  (has_required_fields data
   ∧ find_anomalous_repairs_iter iter data
     = omap (λ k, analyse_group iter k (group_rows data k)) (group_keys data))
  ∨ (¬ has_required_fields data ∧ find_anomalous_repairs_iter iter data = []).
Proof.
  destruct (decide ("Repair Number" ∈ columns data)) as [H1|H1];
    [destruct (decide ("Movement Code" ∈ columns data)) as [H2|H2]|].
  - left. split; [done|]. by apply find_anomalous_repairs_iter_groups.
  - right. split; [by intros [_ ?]|]. apply find_anomalous_repairs_iter_guard. auto.
  - right. split; [by intros [? _]|]. apply find_anomalous_repairs_iter_guard. auto.
Qed.

Lemma find_anomalous_repairs_iter_ascending (iter : list Z) (data : DataFrame) :
  StronglySorted string_lt (Repair_Number <$> find_anomalous_repairs_iter iter data).
Proof.
  destruct (find_anomalous_repairs_iter_cases iter data) as [[_ ->]|[_ ->]]; [|constructor].
  apply (omap_keys_sorted _ (λ k, analyse_group iter k (group_rows data k))).
  - intros k a. apply analyse_group_repair.
  - apply group_keys_ascending.
Qed.

Lemma string_ltb_leb (s1 s2 : string) : String.ltb s1 s2 = true → String.leb s1 s2 = true.
Proof. unfold String.leb, String.ltb. by destruct (String.compare s1 s2). Qed.

Lemma omap_length_le {A B} (F : A → option B) (l : list A) :
  (length (omap F l) ≤ length l)%nat.
Proof. induction l as [|x l IH]; csimpl; [done|]. destruct (F x); simpl; lia. Qed.

Lemma remove_dups_length_le {A} `{!EqDecision A} (l : list A) :
  (length (remove_dups l) ≤ length l)%nat.
Proof.
  induction l as [|x l IH]; simpl; [done|].
  destruct (decide_rel _ _ _); simpl; lia.
Qed.

(** X1. The detector returns its records in strictly ascending order of
    repair number, so no two records have the same repair number; there are
    at most as many records as distinct repair numbers, and at most as many
    as rows. *)
Theorem find_anomalous_repairs_ascending (data : DataFrame) :
  StronglySorted string_lt (Repair_Number <$> find_anomalous_repairs data)
  ∧ NoDup (Repair_Number <$> find_anomalous_repairs data)
  ∧ (length (find_anomalous_repairs data)
     ≤ length (remove_dups (repair_number <$> rows data)))%nat
  ∧ (length (find_anomalous_repairs data) ≤ length (rows data))%nat.
Proof.
  assert (length (find_anomalous_repairs data)
          ≤ length (remove_dups (repair_number <$> rows data)))%nat as Hlen.
  { unfold find_anomalous_repairs.
    destruct (find_anomalous_repairs_iter_cases (elements required_codes) data)
      as [[_ ->]|[_ ->]]; [|simpl; lia].
    etrans; [apply omap_length_le|]. unfold group_keys. by rewrite sorted_by_length. }
  split; [apply find_anomalous_repairs_iter_ascending|].
  split; [|split; [done|]].
  - pose proof (find_anomalous_repairs_iter_ascending (elements required_codes) data) as H.
    fold (find_anomalous_repairs data) in H.
    induction H as [|r rs Hrs IH Hr]; constructor; [|done].
    intros Hin. rewrite Forall_forall in Hr. specialize (Hr _ Hin).
    unfold string_lt, String.ltb in Hr.
    assert (String.compare r r = Eq) as E; [|by rewrite E in Hr].
    pose proof (String.compare_antisym r r) as Ha.
    destruct (String.compare r r); done.
  - etrans; [exact Hlen|].
    etrans; [apply remove_dups_length_le|]. by rewrite length_fmap.
Qed.

(** X2. The writer's sort leaves a list that comes from the detector as it
    is: after the call the caller's list is the detector's result, in its
    order, and the chunks handed to the file are those of the report on the
    records in that order, from the first on (all of them when no file
    operation raises). *)
Theorem write_after_detect_keeps_order (data : DataFrame) (path : string) (os : Os) :
  let found := find_anomalous_repairs data in
  anomalies_after (write_results_to_file found path os) = found
  ∧ (∀ text, written (write_results_to_file found path os) = Some text →
       ∃ n, text = String.concat "" (take n (report_chunks found)))
  ∧ (completes os found path →
       written (write_results_to_file found path os)
       = Some (String.concat "" (report_chunks found))).
Proof.
  cbv zeta.
  assert (by_repair_number (find_anomalous_repairs data) = find_anomalous_repairs data) as Hfix.
  { apply sorted_by_fixed.
    pose proof (find_anomalous_repairs_iter_ascending (elements required_codes) data) as H.
    fold (find_anomalous_repairs data) in H.
    induction (find_anomalous_repairs data) as [|a l IH]; [constructor|].
    rewrite fmap_cons in H. apply (proj1 (StronglySorted_cons _ _ _)) in H as [Ha Hl].
    constructor; [by apply IH|].
    rewrite Forall_forall in Ha. apply Forall_forall. intros b Hb.
    apply string_ltb_leb, Ha, list_elem_of_fmap. eauto. }
  split; [|split].
  - rewrite write_results_to_file_after, Hfix. by destruct (prepare_dir os path).
  - intros text Hw. apply written_prefix in Hw. by rewrite Hfix in Hw.
  - intros Hc. rewrite write_results_to_file_completes by done. simpl. by rewrite Hfix.
Qed.

(** ** The detector: what a record says about its group *)

Lemma filter_nil_not {A} (P : A → Prop) `{!∀ x, Decision (P x)} (l : list A) (x : A) :
  filter P l = [] → x ∈ l → ¬ P x.
Proof.
  intros Hf Hx HP. assert (x ∈ filter P l) as Hin by by apply list_elem_of_filter.
  rewrite Hf in Hin. by apply elem_of_nil in Hin.
Qed.

Lemma required_ascending_elem (code : Z) :
  code ∈ required_ascending ↔ code ∈ required_codes.
Proof. rewrite required_codes_elem. unfold required_ascending. set_solver. Qed.

(** A group that is not perfect deviates in a way the record lists. *)
Lemma analyse_group_deviation (iter : list Z) (r : string) (g : list Row) (a : AnomalyRecord) :
  enumerates iter required_codes →
  analyse_group iter r g = Some a →
  Missing_Codes a ≠ [] ∨ Extra_Codes a ≠ [] ∨ Unexpected_Codes a ≠ [].
Proof.
  intros Hen. unfold analyse_group.
  destruct (is_perfect _ _ _) eqn:E; [done|].
  rewrite !(sorted_filter_required iter _ Hen). intros [= <-]. simpl.
  set (codes := movement_code <$> g) in *.
  destruct (filter (λ code, get0 (Counter codes) code = 0%nat) required_ascending)
    eqn:Hm; [|by left].
  destruct (filter (λ code, (1 < get0 (Counter codes) code)%nat) required_ascending)
    eqn:He; [|by right; left].
  destruct (sorted (filter (λ code, code ∉ required_codes) (elements (dom (Counter codes)))))
    eqn:Hu; [|by right; right].
  exfalso. assert (is_perfect iter (length codes) (Counter codes) = true) as E';
    [|congruence].
  apply (is_perfect_iff iter Hen), Counter_perfect_iff. intros code.
  destruct (decide (code ∈ required_codes)) as [Hin|Hout].
  - apply required_ascending_elem in Hin.
    pose proof (filter_nil_not _ _ _ Hm Hin) as H0.
    pose proof (filter_nil_not _ _ _ He Hin) as H1.
    cbv beta in H0, H1. rewrite <- Counter_get0. fold codes. lia.
  - destruct (count_code code codes) eqn:Hc; [done|]. exfalso.
    assert (code ∈ sorted (filter (λ code, code ∉ required_codes)
                            (elements (dom (Counter codes))))) as H.
    { rewrite sorted_elem, list_elem_of_filter, elem_of_elements, Counter_dom.
      split; [done|]. apply count_code_pos. lia. }
    rewrite Hu in H. by apply elem_of_nil in H.
Qed.

Lemma clause_length (label : string) (items : list string) :
  length (clause label items) = if decide (items = []) then 0%nat else 1%nat.
Proof. by destruct items. Qed.

(** X3. Every record the detector returns lists at least one deviation: a
    missing code, a code counted more than once or an unexpected code (a
    total other than 3 never stands alone). So every line the writer makes
    from it has a clause after [Repair: <id>]. *)
Theorem anomaly_record_lists_a_deviation (data : DataFrame) (a : AnomalyRecord) :
  a ∈ find_anomalous_repairs data →
  (Missing_Codes a ≠ [] ∨ Extra_Codes a ≠ [] ∨ Unexpected_Codes a ≠ [])
  ∧ (2 ≤ length (clauses a))%nat.
Proof.
  intros Ha. apply anomaly_record_origin in Ha as [_ Hg].
  apply (analyse_group_deviation _ _ _ _ (enumerates_elements _)) in Hg.
  split; [done|]. unfold clauses. rewrite !length_app, !clause_length. simpl.
  destruct Hg as [H|[H|H]];
    destruct (Missing_Codes a), (Extra_Codes a), (Unexpected_Codes a);
    try done; simpl; repeat case_decide; simplify_eq; lia.
Qed.

Lemma length_required_split (codes : list Z) :
  length codes
  = (count_code 161 codes + count_code 251 codes + count_code 252 codes
     + length (filter (λ code, code ∉ required_codes) codes))%nat.
Proof.
  unfold count_code. induction codes as [|x codes IH]; [done|].
  rewrite !filter_cons. simpl. rewrite IH.
  destruct (decide (x ∉ required_codes)) as [Hx|Hx].
  - rewrite required_codes_elem in Hx.
    rewrite !decide_False by naive_solver. simpl. lia.
  - apply dec_stable, required_codes_elem in Hx as [-> | [-> | ->]]; simpl; lia.
Qed.

Lemma stray_rows_length (data : DataFrame) (r : string) :
  length (stray_rows data r)
  = length (filter (λ code, code ∉ required_codes) (movement_code <$> group_rows data r)).
Proof.
  unfold stray_rows. induction (group_rows data r) as [|row g IH]; [done|].
  rewrite fmap_cons, !filter_cons. destruct (decide _); simpl; by rewrite IH.
Qed.

(** X7. The total of a record is made of the counts of the three required
    codes and the number of rows with another code. So a total below 3
    comes with a missing code, and a total above 3 with a code counted more
    than once or an unexpected code. *)
Theorem anomaly_record_total (data : DataFrame) (a : AnomalyRecord) :
  a ∈ find_anomalous_repairs data →
  let r := Repair_Number a in
  Total_Count a
  = (occurrences data r 161 + occurrences data r 251 + occurrences data r 252
     + length (stray_rows data r))%nat
  ∧ ((Total_Count a < 3)%nat → Missing_Codes a ≠ [])
  ∧ ((3 < Total_Count a)%nat → Extra_Codes a ≠ [] ∨ Unexpected_Codes a ≠ []).
Proof.
  intros Ha.
  destruct (anomaly_record_shape _ data a (enumerates_elements _) Ha)
    as (_ & _ & Hmiss & Hextra & Hun & Htotal).
  cbv zeta. set (r := Repair_Number a) in *.
  set (codes := movement_code <$> group_rows data r) in *.
  pose proof (length_required_split codes) as Hlen.
  split; [|split].
  - rewrite Htotal, stray_rows_length, !occurrences_group. exact Hlen.
  - rewrite Htotal. intros Hlt Hnil. rewrite Hnil in Hmiss. symmetry in Hmiss.
    assert (∀ code, code ∈ required_ascending → count_code code codes ≠ 0%nat) as H.
    { intros code Hc. rewrite <- Counter_get0. by apply (filter_nil_not _ _ _ Hmiss). }
    pose proof (H 161). pose proof (H 251). pose proof (H 252).
    unfold required_ascending in *. set_solver by lia.
  - rewrite Htotal. intros Hgt.
    destruct (Extra_Codes a) eqn:He; [|by left]. right. intros Hnil.
    symmetry in Hextra. rewrite Hnil in Hun. symmetry in Hun.
    assert (∀ code, code ∈ required_ascending → (count_code code codes ≤ 1)%nat) as H.
    { intros code Hc. rewrite <- Counter_get0.
      pose proof (filter_nil_not _ _ _ Hextra Hc) as H1. cbv beta in H1. lia. }
    assert (filter (λ code, code ∉ required_codes) codes = []) as Hs.
    { destruct (filter (λ code, code ∉ required_codes) codes) as [|x l] eqn:Hf; [done|].
      assert (x ∈ filter (λ code, code ∉ required_codes) codes) as Hx
        by (rewrite Hf; apply list_elem_of_here).
      apply list_elem_of_filter in Hx as [Hx1 Hx2].
      assert (x ∈ sorted (filter (λ code, code ∉ required_codes)
                            (elements (dom (Counter codes))))) as Hx3.
      { by rewrite sorted_elem, list_elem_of_filter, elem_of_elements, Counter_dom. }
      rewrite Hun in Hx3. by apply elem_of_nil in Hx3. }
    rewrite Hs in Hlen. simpl in Hlen.
    assert (161 ∈ required_ascending) as H1 by (unfold required_ascending; set_solver).
    assert (251 ∈ required_ascending) as H2 by (unfold required_ascending; set_solver).
    assert (252 ∈ required_ascending) as H3 by (unfold required_ascending; set_solver).
    pose proof (H _ H1). pose proof (H _ H2). pose proof (H _ H3). lia.
Qed.

(** X10. In a line made from a record of the detector, the number in
    brackets after an excess or unexpected code is the number of rows of
    that repair with that code; the fallback [?] is never printed. *)
Theorem report_shows_the_counts (data : DataFrame) (a : AnomalyRecord) (code : Z) :
  a ∈ find_anomalous_repairs data →
  code ∈ Extra_Codes a ∨ code ∈ Unexpected_Codes a →
  code_with_tally a code
  = pretty code +:+ "(" +:+ pretty (occurrences data (Repair_Number a) code) +:+ ")"
  ∧ (0 < occurrences data (Repair_Number a) code)%nat.
Proof.
  intros Ha Hc.
  destruct (anomaly_record_shape _ data a (enumerates_elements _) Ha)
    as (_ & Hfound & _ & Hextra & Hun & _).
  set (codes := movement_code <$> group_rows data (Repair_Number a)) in *.
  assert (0 < count_code code codes)%nat as Hpos.
  { destruct Hc as [Hc|Hc].
    - rewrite Hextra in Hc. apply list_elem_of_filter in Hc as [Hc _].
      rewrite Counter_get0 in Hc. lia.
    - rewrite Hun, sorted_elem, list_elem_of_filter, elem_of_elements in Hc.
      destruct Hc as [_ Hc]. by apply count_code_pos, Counter_dom. }
  rewrite occurrences_group. fold codes. split; [|done].
  unfold code_with_tally. rewrite Hfound, Counter_lookup.
  by destruct (count_code code codes); [lia|].
Qed.

(** ** The detector: one repair at a time *)

Lemma find_anomalous_repairs_iter_elem (iter : list Z) (data : DataFrame) (a : AnomalyRecord) :
  has_required_fields data →
  a ∈ find_anomalous_repairs_iter iter data
  ↔ Repair_Number a ∈ repair_number <$> rows data
    ∧ analyse_group iter (Repair_Number a) (group_rows data (Repair_Number a)) = Some a.
Proof.
  intros Hf. split; [apply anomaly_record_origin|].
  intros [Hin Hg]. rewrite find_anomalous_repairs_iter_groups by done.
  apply list_elem_of_omap. exists (Repair_Number a). by rewrite group_keys_elem.
Qed.

Lemma group_rows_nil (data : DataFrame) (r : string) :
  r ∉ repair_number <$> rows data → group_rows data r = [].
Proof.
  intros Hr. destruct (group_rows data r) eqn:E; [done|].
  destruct Hr. apply group_rows_length. rewrite E. simpl. lia.
Qed.

Lemma records_of_repair (iter : list Z) (data : DataFrame) (r : string) :
  has_required_fields data →
  filter (λ a, Repair_Number a = r) (find_anomalous_repairs_iter iter data)
  = match group_rows data r with
    | [] => []
    | _ => option_list (analyse_group iter r (group_rows data r))
    end.
Proof.
  intros Hf. rewrite find_anomalous_repairs_iter_groups by done.
  rewrite (records_of_key (λ k, analyse_group iter k (group_rows data k)));
    [|apply group_keys_NoDup | intros k a; apply analyse_group_repair].
  destruct (decide (r ∈ group_keys data)) as [Hin|Hout].
  - apply group_keys_elem, group_rows_length in Hin.
    destruct (group_rows data r); [simpl in Hin; lia | done].
  - rewrite group_keys_elem in Hout. by rewrite (group_rows_nil _ _ Hout).
Qed.

(** X4. What the detector reports for a repair depends on the rows of that
    repair only: two tables (both with the required columns) that hold the
    same rows for a repair number, in any order, get the same record for
    it, or none in both. *)
Theorem find_anomalous_repairs_local (d1 d2 : DataFrame) (r : string) :
  has_required_fields d1 → has_required_fields d2 →
  group_rows d1 r ≡ₚ group_rows d2 r →
  filter (λ a, Repair_Number a = r) (find_anomalous_repairs d1)
  = filter (λ a, Repair_Number a = r) (find_anomalous_repairs d2).
Proof.
  intros H1 H2 Hp. unfold find_anomalous_repairs.
  rewrite !records_of_repair by done.
  rewrite (analyse_group_perm _ r _ _ Hp).
  destruct (group_rows d1 r) as [|x g1] eqn:E1.
  - apply Permutation_nil_l in Hp. by rewrite <- Hp.
  - destruct (group_rows d2 r); [|done].
    by apply Permutation_nil_r in Hp.
Qed.

Lemma group_rows_append (d1 d2 : DataFrame) (r : string) :
  group_rows (df_append d1 d2) r = group_rows d1 r ++ group_rows d2 r.
Proof. unfold group_rows, df_append. simpl. apply filter_app. Qed.

(** X5. Putting a second table after a first one with which it shares no
    repair number (and whose columns it has) gives the records of the first
    and the records of the second, no more and no less. *)
Theorem find_anomalous_repairs_append (d1 d2 : DataFrame) (a : AnomalyRecord) :
  has_required_fields d1 → columns d2 = columns d1 →
  (∀ r, r ∈ repair_number <$> rows d1 → r ∉ repair_number <$> rows d2) →
  a ∈ find_anomalous_repairs (df_append d1 d2)
  ↔ a ∈ find_anomalous_repairs d1 ∨ a ∈ find_anomalous_repairs d2.
Proof.
  intros H1 Hc Hdis.
  assert (has_required_fields d2) as H2 by (unfold has_required_fields; by rewrite Hc).
  assert (has_required_fields (df_append d1 d2)) as H12 by done.
  unfold find_anomalous_repairs. rewrite !find_anomalous_repairs_iter_elem by done.
  set (r := Repair_Number a). rewrite group_rows_append.
  unfold df_append at 1. simpl. rewrite fmap_app, elem_of_app.
  destruct (decide (r ∈ repair_number <$> rows d1)) as [Hr1|Hr1].
  - pose proof (Hdis _ Hr1) as Hr2.
    rewrite (group_rows_nil d2 r Hr2), app_nil_r. tauto.
  - rewrite (group_rows_nil d1 r Hr1). simpl. tauto.
Qed.

(** X6. On a table with the required columns the detector returns no
    record exactly when every repair of the table is perfect, and this is
    when the writer, in a call during which no file operation raises,
    writes the sentinel line. *)
Theorem no_anomaly_iff_all_perfect (data : DataFrame) (path : string) (os : Os) :
  has_required_fields data → completes os (find_anomalous_repairs data) path →
  (find_anomalous_repairs data = []
   ↔ ∀ r, r ∈ repair_number <$> rows data → perfect_repair data r)
  ∧ (written (write_results_to_file (find_anomalous_repairs data) path os)
     = Some sentinel_line
     ↔ find_anomalous_repairs data = []).
Proof.
  intros Hf Ho. split.
  - unfold find_anomalous_repairs. split.
    + intros Hnil r Hr.
      apply (analyse_group_None _ (enumerates_elements _)).
      destruct (analyse_group _ r (group_rows data r)) as [a|] eqn:E; [|done].
      assert (a ∈ find_anomalous_repairs_iter (elements required_codes) data) as Ha.
      { apply find_anomalous_repairs_iter_elem; [done|].
        by rewrite (analyse_group_repair _ _ _ _ E). }
      rewrite Hnil in Ha. by apply elem_of_nil in Ha.
    + intros Hall.
      destruct (find_anomalous_repairs_iter _ data) as [|a l] eqn:E; [done|].
      assert (a ∈ find_anomalous_repairs_iter (elements required_codes) data) as Ha
        by (rewrite E; apply list_elem_of_here).
      apply anomaly_record_origin in Ha as [Hin Hg].
      apply Hall, (analyse_group_None _ (enumerates_elements _)) in Hin. congruence.
  - rewrite (write_results_to_file_completes _ _ _ Ho). simpl.
    destruct (find_anomalous_repairs data) as [|a l] eqn:E; [done|].
    split; [|done]. rewrite report_chunks_text by by rewrite by_repair_number_nil.
    intros H. discriminate H.
Qed.

(** ** The writer: the returned message, and when the list is sorted *)



(** X9. A path without directory part, or whose directory exists, never
    reaches [os.makedirs]: after every such call the caller's list holds
    the same records in ascending order of repair number, also when the
    file cannot be opened. *)
Theorem write_results_sorts_without_makedirs (l : list AnomalyRecord) (path : string) (os : Os) :
  os_path_dirname os path = "" ∨ os_path_exists os (os_path_dirname os path) = true →
  let after := anomalies_after (write_results_to_file l path os) in
  after ≡ₚ l
  ∧ StronglySorted string_le (Repair_Number <$> after)
  ∧ ∀ r, filter (λ a, Repair_Number a = r) after = filter (λ a, Repair_Number a = r) l.
Proof.
  intros Hdir. cbv zeta. rewrite write_results_to_file_after.
  assert (prepare_dir os path = None) as ->.
  { unfold prepare_dir. destruct Hdir as [-> | ->]; [done|]. by rewrite andb_false_r. }
  split; [apply by_repair_number_perm|].
  split; [apply by_repair_number_ascending|].
  intros r. apply (sorted_by_stable Repair_Number String.leb String.leb_total).
Qed.

(** ** The loader *)





(** ** The further properties at work on sample tables *)

Lemma anomaly_R3_found : anomaly_R3 ∈ find_anomalous_repairs sample.
Proof.
  rewrite find_anomalous_repairs_sample. apply list_elem_of_further, list_elem_of_here.
Defined.

Lemma three_rows_has_required_fields : has_required_fields three_rows.
Proof. split; apply (bool_decide_unpack _); vm_compute; exact I. Defined.

Lemma perfect_R7_has_required_fields : has_required_fields perfect_R7.
Proof. split; apply (bool_decide_unpack _); vm_compute; exact I. Defined.

Lemma anomaly_record_lists_a_deviation_witness :
  anomaly_R2 ∈ find_anomalous_repairs sample ∧ (2 ≤ length (clauses anomaly_R2))%nat.
Proof.
  split; [exact anomaly_R2_found|].
  apply (anomaly_record_lists_a_deviation sample anomaly_R2 anomaly_R2_found).
Defined.

Lemma anomaly_record_total_witness :
  anomaly_R2 ∈ find_anomalous_repairs sample
  ∧ (Total_Count anomaly_R2 < 3)%nat
  ∧ Missing_Codes anomaly_R2 ≠ [].
Proof.
  split; [exact anomaly_R2_found|].
  assert (Total_Count anomaly_R2 < 3)%nat as Hlt by (simpl; lia).
  split; [exact Hlt|].
  destruct (anomaly_record_total sample anomaly_R2 anomaly_R2_found) as (_ & Hm & _).
  exact (Hm Hlt).
Defined.

Lemma report_shows_the_counts_witness :
  anomaly_R3 ∈ find_anomalous_repairs sample
  ∧ (251 ∈ Extra_Codes anomaly_R3 ∨ 251 ∈ Unexpected_Codes anomaly_R3)
  ∧ code_with_tally anomaly_R3 251
    = pretty 251 +:+ "(" +:+ pretty (occurrences sample "R3" 251) +:+ ")".
Proof.
  assert (251 ∈ Extra_Codes anomaly_R3 ∨ 251 ∈ Unexpected_Codes anomaly_R3) as Hc
    by (left; apply list_elem_of_here).
  split; [exact anomaly_R3_found|]. split; [exact Hc|].
  apply (report_shows_the_counts sample anomaly_R3 251 anomaly_R3_found Hc).
Defined.

Lemma find_anomalous_repairs_local_witness :
  has_required_fields three_rows ∧ has_required_fields sample
  ∧ group_rows three_rows "R2" ≡ₚ group_rows sample "R2"
  ∧ filter (λ a, Repair_Number a = "R2") (find_anomalous_repairs three_rows)
    = filter (λ a, Repair_Number a = "R2") (find_anomalous_repairs sample).
Proof.
  assert (group_rows three_rows "R2" ≡ₚ group_rows sample "R2") as Hp
    by (vm_compute; reflexivity).
  split; [exact three_rows_has_required_fields|].
  split; [exact sample_has_required_fields|]. split; [exact Hp|].
  exact (find_anomalous_repairs_local three_rows sample "R2"
           three_rows_has_required_fields sample_has_required_fields Hp).
Defined.

Lemma sample_without_R7 :
  ∀ r, r ∈ repair_number <$> rows sample → r ∉ repair_number <$> rows perfect_R7.
Proof.
  assert ("R7" ∉ repair_number <$> rows sample) as Hno.
  { apply (bool_decide_eq_false_1 _). vm_compute. reflexivity. }
  intros r Hr Hr'. simpl in Hr'. set_solver.
Defined.

Lemma find_anomalous_repairs_append_witness :
  has_required_fields sample ∧ columns perfect_R7 = columns sample
  ∧ (∀ r, r ∈ repair_number <$> rows sample → r ∉ repair_number <$> rows perfect_R7)
  ∧ anomaly_R2 ∈ find_anomalous_repairs (df_append sample perfect_R7).
Proof.
  split; [exact sample_has_required_fields|]. split; [reflexivity|].
  split; [exact sample_without_R7|].
  apply (find_anomalous_repairs_append sample perfect_R7 anomaly_R2
           sample_has_required_fields eq_refl sample_without_R7).
  left. exact anomaly_R2_found.
Defined.

Lemma no_anomaly_iff_all_perfect_witness :
  has_required_fields perfect_R7
  ∧ completes plain_os (find_anomalous_repairs perfect_R7) "flagged_repairs_detailed.txt"
  ∧ (∀ r, r ∈ repair_number <$> rows perfect_R7 → perfect_repair perfect_R7 r)
  ∧ written (write_results_to_file (find_anomalous_repairs perfect_R7)
               "flagged_repairs_detailed.txt" plain_os)
    = Some sentinel_line.
Proof.
  split; [exact perfect_R7_has_required_fields|]. split; [exact (plain_os_completes _)|].
  destruct (no_anomaly_iff_all_perfect perfect_R7 "flagged_repairs_detailed.txt" plain_os
              perfect_R7_has_required_fields (plain_os_completes _)) as [Hall Hsent].
  assert (find_anomalous_repairs perfect_R7 = []) as Hnil by (vm_compute; reflexivity).
  split; [exact (proj1 Hall Hnil) | exact (proj2 Hsent Hnil)].
Defined.


Lemma write_results_sorts_without_makedirs_witness :
  (os_path_dirname plain_os "flagged_repairs_detailed.txt" = ""
   ∨ os_path_exists plain_os (os_path_dirname plain_os "flagged_repairs_detailed.txt") = true)
  ∧ anomalies_after
      (write_results_to_file [anomaly_R3; anomaly_R2] "flagged_repairs_detailed.txt" plain_os)
    ≡ₚ [anomaly_R3; anomaly_R2].
Proof.
  assert (os_path_dirname plain_os "flagged_repairs_detailed.txt" = ""
          ∨ os_path_exists plain_os
              (os_path_dirname plain_os "flagged_repairs_detailed.txt") = true) as Hd
    by (left; reflexivity).
  split; [exact Hd|].
  apply (write_results_sorts_without_makedirs [anomaly_R3; anomaly_R2]
           "flagged_repairs_detailed.txt" plain_os Hd).
Defined.

